(** * The Observer pattern of jsDesignPatterns/observer.js

    A shallow embedding of [ObserverList] and [Subject], and the properties
    of registration, removal and dispatch.

    Conventions of the embedding:
    - an observer is a JavaScript object, known by its reference: [===]
      on two observers is equality of references;
    - the array [observerList] is a [list]; it is only ever changed by
      [push] and [splice], so it has no holes;
    - an index is an integer ([Z]); a read outside the array, and a function
      that falls off its end, give [undefined], written [None];
    - a JavaScript number is a double: counting by one is exact from
      [-2^53] up, and where the code counts from a number it was given
      ([indexOf]) the statements keep to that range;
    - a method that mutates [this] returns the object after the call. *)

From Stdlib Require Import ZArith List Bool Lia PeanoNat.
From Stdlib Require String.
Import String.StringSyntax.
Import ListNotations.
Local Open Scope Z_scope.
Delimit Scope string_scope with string.

(** ** JavaScript values the code handles *)

(** An observer: an object reference. *)
Definition Obs := nat.

(** [a === b] on observers. *)
Definition strict_eq (a b : Obs) : bool := Nat.eqb a b.

(** [x === obj] when [x] is the result of an array read, which may be
    [undefined]; an observer is never [undefined]. *)
Definition strict_eq_read (x : option Obs) (obj : Obs) : bool :=
  match x with
  | Some a => strict_eq a obj
  | None => false
  end.

(** [arr.length]. *)
Definition len (arr : list Obs) : Z := Z.of_nat (length arr).

(** [arr[i]] for an integer [i]: [undefined] outside [0 .. length-1]. *)
Definition arr_read (arr : list Obs) (i : Z) : option Obs :=
  if i <? 0 then None else nth_error arr (Z.to_nat i).

(** [arr.push(obj)]: the array after the call and the returned new length. *)
Definition push (arr : list Obs) (obj : Obs) : list Obs * Z :=
  let arr' := arr ++ [obj] in (arr', len arr').

(** [arr.splice(start, deleteCount)] with no items to insert, on integer
    arguments: a negative [start] counts from the end, both are clamped to
    the array. The array after the call and the removed elements. *)
Definition splice_start (n start : Z) : Z :=
  if start <? 0 then Z.max (n + start) 0 else Z.min start n.

Definition splice (arr : list Obs) (start deleteCount : Z)
  : list Obs * list Obs :=
  let n := len arr in
  let actualStart := splice_start n start in
  let actualDeleteCount := Z.min (Z.max deleteCount 0) (n - actualStart) in
  let a := Z.to_nat actualStart in
  let k := Z.to_nat actualDeleteCount in
  (firstn a arr ++ skipn (a + k) arr, firstn k (skipn a arr)).

(** ** ObserverList *)

Record ObserverList := mkObserverList { observerList : list Obs }.

(** [new ObserverList()] *)
Definition ObserverList_new : ObserverList := mkObserverList [].

Module ObserverList_prototype.

(** [add(obj)]: [return this.observerList.push(obj)]. *)
Definition add (this : ObserverList) (obj : Obs) : ObserverList * Z :=
  let (arr, n) := push (observerList this) obj in (mkObserverList arr, n).

(** [count()]: [return this.observerList.length]. *)
Definition count (this : ObserverList) : Z := len (observerList this).

(** [get(index)]: the element when [index > -1 && index < length],
    otherwise the function returns nothing, that is [undefined]. *)
Definition get (this : ObserverList) (index : Z) : option Obs :=
  if (index >? -1) && (index <? len (observerList this))
  then arr_read (observerList this) index
  else None.

(** The counter [i] of [indexOf] starts from [startIndex] and is a double.
    From [-2^53] up every integer on the way to [length] is a double and
    [i++] is exact; below, [i + 1] can round back to [i] (as it does at
    [-(2^53 + 4)]) and the loop of the source then never ends. The loop
    below counts in [Z]: it is the loop of the source for the start indices
    that count exactly. *)
Definition counts_exactly (startIndex : Z) : Prop := - 2 ^ 53 <= startIndex.

(** The [while] loop of [indexOf]. Each turn tests [i < length], compares
    [observerList[i]] with [obj] and increments [i]; [fuel] bounds the number
    of turns and [indexOf] gives as many as the loop can take. *)
Fixpoint indexOf_while (fuel : nat) (arr : list Obs) (obj : Obs) (i : Z) : Z :=
  match fuel with
  | O => -1
  | S fuel' =>
      if i <? len arr then
        if strict_eq_read (arr_read arr i) obj then i
        else indexOf_while fuel' arr obj (i + 1)
      else -1
  end.

(** [indexOf(obj, startIndex)]. [startIndex] is [None] when the argument is
    omitted: [i] is then [undefined], [undefined < length] is false and the
    loop is not entered. *)
Definition indexOf (this : ObserverList) (obj : Obs) (startIndex : option Z) : Z :=
  match startIndex with
  | None => -1
  | Some s =>
      let arr := observerList this in
      indexOf_while (Z.to_nat (len arr - s)) arr obj s
  end.

(** [removeAt(index)]: [this.observerList.splice(index, 1)]. *)
Definition removeAt (this : ObserverList) (index : Z) : ObserverList :=
  mkObserverList (fst (splice (observerList this) index 1)).

End ObserverList_prototype.

(** ** Subject *)

Record Subject := mkSubject { observers : ObserverList }.

(** [new Subject()] *)
Definition Subject_new : Subject := mkSubject ObserverList_new.

(** The outcome of a call: it returns, or it throws. [TypeError] is what the
    engine throws on [undefined.update]; [Raised] is an error of a handler's
    own. *)
Inductive exn : Type :=
| TypeError
| Raised (payload : nat).

Inductive completion : Type :=
| Normal
| Throw (e : exn).

Module Subject_prototype.

(** [addObserver(observer)]: [this.observers.add(observer)]. *)
Definition addObserver (this : Subject) (observer : Obs) : Subject :=
  mkSubject (fst (ObserverList_prototype.add (observers this) observer)).

(** [removeObserver(observer)]:
    [this.observers.removeAt(this.observers.indexOf(observer, 0))]. *)
Definition removeObserver (this : Subject) (observer : Obs) : Subject :=
  mkSubject
    (ObserverList_prototype.removeAt (observers this)
       (ObserverList_prototype.indexOf (observers this) observer (Some 0))).

Section Dispatch.

(** The argument of [notify] and [update] is any value. *)
Variable Ctx : Type.

(** What an [update] handler can reach besides the subject: the rest of the
    program's state. *)
Variable Heap : Type.

(** The subject is one shared object: a handler that holds it changes the
    very list [notify] is reading. *)
Record World : Type := mkWorld { subject : Subject; heap : Heap }.

(** [observer.update(context)]: a handler is arbitrary code; it runs on the
    world, may change the subject and the heap, and returns or throws. An
    object with no [update] method is a handler that throws [TypeError]. *)
Definition update_method : Type := Obs -> Ctx -> World -> completion * World.

(** The calls of [update] that a dispatch pass makes, oldest first: which
    observer, with which argument. *)
Definition calls : Type := list (Obs * Ctx).

(** The [for] loop of [notify]. [observerCount] was read before the loop and
    [i] goes up by one, so the number of [turns] left is fixed on entry;
    each turn reads the live list with [get(i)] and calls [update] on what it
    finds, which throws [TypeError] when that is [undefined]. An error ends
    the loop at once. *)
Fixpoint notify_for (update : update_method) (context : Ctx) (turns : nat)
    (i : Z) (w : World) (made : calls) : completion * World * calls :=
  match turns with
  | O => (Normal, w, made)
  | S turns' =>
      match ObserverList_prototype.get (observers (subject w)) i with
      | None => (Throw TypeError, w, made)
      | Some o =>
          match update o context w with
          | (Normal, w') =>
              notify_for update context turns' (i + 1) w' (made ++ [(o, context)])
          | (Throw e, w') => (Throw e, w', made ++ [(o, context)])
          end
      end
  end.

(** [notify(context)] *)
Definition notify (update : update_method) (context : Ctx) (w : World)
  : completion * World * calls :=
  let observerCount := ObserverList_prototype.count (observers (subject w)) in
  notify_for update context (Z.to_nat observerCount) 0 w [].

End Dispatch.

End Subject_prototype.

Arguments Subject_prototype.mkWorld {Heap} _ _.
Arguments Subject_prototype.subject {Heap} _.
Arguments Subject_prototype.heap {Heap} _.
Arguments Subject_prototype.notify_for {Ctx Heap} _ _ _ _ _ _.
Arguments Subject_prototype.notify {Ctx Heap} _ _ _.

(** ** What handlers do, and what a pass did *)

Module Handlers.

Import Subject_prototype.

Section Handlers.

Variables Ctx Heap : Type.

(** The observers registered in a world's subject. *)
Definition registered (w : World Heap) : list Obs :=
  observerList (observers (subject w)).

(** The calls that give [context] to each observer of [l] in turn. *)
Definition calls_for (context : Ctx) (l : list Obs) : calls Ctx :=
  map (fun o => (o, context)) l.

(** Handlers that return: no [update] throws. *)
Definition returns (update : update_method Ctx Heap) : Prop :=
  forall o c w, fst (update o c w) = Normal.

(** Handlers that leave the observer list as it is. *)
Definition keeps_list (update : update_method Ctx Heap) : Prop :=
  forall o c w, registered (snd (update o c w)) = registered w.

(** Handlers that only add observers: the list after is the list before
    with observers appended. *)
Definition only_adds (update : update_method Ctx Heap) : Prop :=
  forall o c w, exists added,
    registered (snd (update o c w)) = registered w ++ added.

End Handlers.

End Handlers.

Arguments Handlers.calls_for {Ctx} _ _.
Arguments Handlers.registered {Heap} _.
Arguments Handlers.returns {Ctx Heap} _.
Arguments Handlers.keeps_list {Ctx Heap} _.
Arguments Handlers.only_adds {Ctx Heap} _.

(** ** Programs that use the subject *)

Module Scenario.

Import Subject_prototype.

(** Three distinct observer objects. *)
Definition A : Obs := 1%nat.
Definition B : Obs := 2%nat.
Definition C : Obs := 3%nat.

(** The list [this] after [add] was called on it with each of [l] in turn. *)
Definition list_after_adding (this : ObserverList) (l : list Obs) : ObserverList :=
  fold_left (fun ol x => fst (ObserverList_prototype.add ol x)) l this.

(** A subject on which [addObserver] was called with each of [l] in turn. *)
Definition subject_after_adding (l : list Obs) : Subject :=
  fold_left addObserver l Subject_new.

(** The observers of the page are checkboxes; the state they change is
    their own [checked] property. *)
Definition Checked : Type := Obs -> bool.

(** [check.update = function(value){ this.checked = value; }] *)
Definition checkbox_update : update_method bool Checked :=
  fun this value w =>
    (Normal,
     mkWorld (subject w)
       (fun o => if strict_eq o this then value else heap w o)).

(** A page of checkboxes [l], all unchecked. *)
Definition page (l : list Obs) : World Checked :=
  mkWorld (subject_after_adding l) (fun _ => false).

(** A world with no state besides the subject. *)
Definition bare (l : list Obs) : World unit :=
  mkWorld (subject_after_adding l) tt.

(** [A.update = function(){ subject.removeObserver(A); }]; the other
    observers do nothing. *)
Definition leaving_update : update_method Z unit :=
  fun this _ w =>
    if strict_eq this A
    then (Normal, mkWorld (removeObserver (subject w) A) (heap w))
    else (Normal, w).

(** [A.update = function(){ subject.addObserver(C); }] *)
Definition recruiting_update : update_method Z unit :=
  fun this _ w =>
    if strict_eq this A
    then (Normal, mkWorld (addObserver (subject w) C) (heap w))
    else (Normal, w).

(** [A.update = function(){ subject.addObserver(C); subject.removeObserver(A); }] *)
Definition replacing_update : update_method Z unit :=
  fun this _ w =>
    if strict_eq this A
    then (Normal,
          mkWorld (removeObserver (addObserver (subject w) C) A) (heap w))
    else (Normal, w).

(** [A.update = function(){ throw 7; }] *)
Definition failing_update : update_method Z unit :=
  fun this _ w =>
    if strict_eq this A then (Throw (Raised 7), w) else (Normal, w).

End Scenario.

(** ** Handlers that resize the list *)

Module Resizing.

Import Subject_prototype Handlers.

Section Resizing.

Variables Ctx Heap : Type.

(** Handlers that never leave the list shorter than they found it. *)
Definition never_shrinks (update : update_method Ctx Heap) : Prop :=
  forall o c w,
    (length (registered w) <= length (registered (snd (update o c w))))%nat.

End Resizing.

(** [A.update = function(){ subject.removeObserver(A); subject.addObserver(A); }] *)
Definition requeueing_update : update_method Z unit :=
  fun this _ w =>
    if strict_eq this Scenario.A
    then (Normal,
          mkWorld (addObserver (removeObserver (subject w) Scenario.A) Scenario.A)
            (heap w))
    else (Normal, w).

End Resizing.

Arguments Resizing.never_shrinks {Ctx Heap} _.

(** ** The page of the example

    The DOM is kept to what the script uses of it: an element is an object
    reference, [document.createElement] gives an element that no one holds
    yet, with [checked] false, and [appendChild] puts it last among the
    children of the container. *)

Module Page.

Import Subject_prototype.

Record page : Type := mkPage {
  (** [controlCheckbox], extended with a [Subject], and the [checked]
      property of the elements *)
  world : World Scenario.Checked;
  (** the children of [#observersContainer] *)
  container : list Obs;
  (** how many elements [document.createElement] has made *)
  created : nat
}.

(** The page once the script has run: [extend(controlCheckbox, new Subject())]
    and nothing created yet. *)
Definition loaded : page := mkPage (mkWorld Subject_new (fun _ => false)) [] 0.

(** [addNewObserver()]: a new checkbox [check], extended with an [Observer],
    its [update] overridden with [function(value){ this.checked = value; }]
    (the handler [Scenario.checkbox_update] of every checkbox), then
    [controlCheckbox.addObserver(check)] and [container.appendChild(check)]. *)
Definition addNewObserver (p : page) : page :=
  let check : Obs := created p in
  let checked := fun o => if strict_eq o check then false else heap (world p) o in
  mkPage
    (mkWorld (addObserver (subject (world p)) check) checked)
    (container p ++ [check])
    (S (created p)).

(** [controlCheckbox.onclick]: [controlCheckbox.notify(controlCheckbox.checked)],
    where [checked] is the state the click left the control checkbox in. *)
Definition controlCheckbox_onclick (checked : bool) (p : page)
  : completion * page * calls bool :=
  let '(c, w, made) := notify Scenario.checkbox_update checked (world p) in
  (c, mkPage w (container p) (created p), made).

(** What the user does: a click on the button, or a click on the control
    checkbox that leaves it checked or not. *)
Inductive event : Type :=
| ClickAdd
| ClickControl (checked : bool).

(** [addBtn.onclick = addNewObserver] and [controlCheckbox.onclick]. *)
Definition handle (p : page) (e : event) : page :=
  match e with
  | ClickAdd => addNewObserver p
  | ClickControl checked => snd (fst (controlCheckbox_onclick checked p))
  end.

Definition run (es : list event) (p : page) : page := fold_left handle es p.

(** What holds of the page after [n] checkboxes were created: they are the
    elements 0 to [n - 1], the children of the container and the observers
    of the control checkbox, in the order of creation. *)
Definition in_step (p : page) (n : nat) : Prop :=
  created p = n
  /\ container p = seq 0 n
  /\ Handlers.registered (world p) = seq 0 n.

(** The number of clicks on the button among [es]. *)
Definition adds (es : list event) : nat :=
  length (filter (fun e => match e with ClickAdd => true | _ => false end) es).

End Page.

(** ** Objects, [extend] and [Observer]

    [extend] sees its arguments as bags of properties, so here an object is
    its properties: its own, in creation order, and those of the objects of
    its prototype chain, nearest first. Properties are plain data
    properties, all writable, with keys that are not array indices; [obj]
    and [extension] are two objects, and [obj] is not on the prototype chain
    of [extension]. *)

Module Objects.

Section Objects.

(** What a property holds, and the [undefined] that reading a missing
    property gives. *)
Variable Value : Type.
Variable undefined : Value.

Record property : Type := mkProperty { value : Value; enumerable : bool }.

Definition properties : Type := list (String.string * property).

Record object : Type := mkObject {
  own : properties;
  prototypes : list properties
}.

(** The own property of that name, if there is one. *)
Fixpoint own_property (ps : properties) (key : String.string) : option property :=
  match ps with
  | [] => None
  | (k, p) :: rest =>
      if String.eqb k key then Some p else own_property rest key
  end.

(** The property that a read finds: the nearest one along the chain. *)
Fixpoint chain_property (chain : list properties) (key : String.string)
  : option property :=
  match chain with
  | [] => None
  | ps :: rest =>
      match own_property ps key with
      | Some p => Some p
      | None => chain_property rest key
      end
  end.

(** [obj[key]], read. *)
Definition get (obj : object) (key : String.string) : Value :=
  match chain_property (own obj :: prototypes obj) key with
  | Some p => value p
  | None => undefined
  end.

(** [obj[key] = v]: the own property of that name takes the value, and is
    created, enumerable, after the others when there was none. *)
Fixpoint assign_own (ps : properties) (key : String.string) (v : Value)
  : properties :=
  match ps with
  | [] => [(key, mkProperty v true)]
  | (k, p) :: rest =>
      if String.eqb k key
      then (k, mkProperty v (enumerable p)) :: rest
      else (k, p) :: assign_own rest key v
  end.

Definition set (obj : object) (key : String.string) (v : Value) : object :=
  mkObject (assign_own (own obj) key v) (prototypes obj).

Definition seen_before (key : String.string) (seen : list String.string) : bool :=
  existsb (String.eqb key) seen.

(** The keys that [for (key in ...)] takes from one object of the chain: a
    key is passed over when a nearer object had a property of that name,
    and taken when its property is enumerable. *)
Fixpoint enumerate (seen : list String.string) (ps : properties)
  : list String.string :=
  match ps with
  | [] => []
  | (k, p) :: rest =>
      if seen_before k seen then enumerate seen rest
      else (if enumerable p then [k] else []) ++ enumerate (k :: seen) rest
  end.

(** [for (var key in obj)]: the object's own keys, then those of its
    prototype chain. *)
Fixpoint for_in_chain (seen : list String.string) (chain : list properties)
  : list String.string :=
  match chain with
  | [] => []
  | ps :: rest => enumerate seen ps ++ for_in_chain (map fst ps ++ seen) rest
  end.

Definition for_in (obj : object) : list String.string :=
  for_in_chain [] (own obj :: prototypes obj).

(** [extend(obj, extension)]:
    [for (var key in extension){ obj[key] = extension[key]; }].
    The function changes [obj] and returns nothing; here it returns [obj]
    as the call leaves it. *)
Definition extend_for (extension : object) (keys : list String.string)
    (obj : object) : object :=
  fold_left (fun o key => set o key (get extension key)) keys obj.

Definition extend (obj extension : object) : object :=
  extend_for extension (for_in extension) obj.

(** [new Observer()]: the constructor runs [this.update = function(){ }] on
    a new object whose prototype chain is that of [Observer.prototype];
    [nothing] is that function. *)
Definition Observer (Observer_prototype : list properties) (nothing : Value)
  : object :=
  set (mkObject [] Observer_prototype) "update"%string nothing.

End Objects.

End Objects.

Arguments Objects.mkProperty {Value} _ _.
Arguments Objects.value {Value} _.
Arguments Objects.enumerable {Value} _.
Arguments Objects.mkObject {Value} _ _.
Arguments Objects.own {Value} _.
Arguments Objects.prototypes {Value} _.
Arguments Objects.own_property {Value} _ _.
Arguments Objects.chain_property {Value} _ _.
Arguments Objects.get {Value} _ _ _.
Arguments Objects.assign_own {Value} _ _ _.
Arguments Objects.set {Value} _ _ _.
Arguments Objects.enumerate {Value} _ _.
Arguments Objects.for_in_chain {Value} _ _.
Arguments Objects.for_in {Value} _.
Arguments Objects.extend_for {Value} _ _ _ _.
Arguments Objects.extend {Value} _ _ _.
Arguments Objects.Observer {Value} _ _.

(** ** The objects that the script extends *)

Module Extended.

Import Objects.

(** A value: [undefined], or a reference to an object or a function. *)
Definition ref : Type := option nat.


(** [Observer.prototype]: nothing but its [constructor]. *)
Definition Observer_prototype (constructor : ref) : list (properties ref) :=
  [[("constructor"%string, mkProperty constructor false)]].


End Extended.

(** * Properties *)

(** Closes a goal [~ In x l] on a list of known, distinct observers. *)
Ltac absent_from_list := simpl; intuition discriminate.

(** Rewriting with the equations of [push] and [add]. *)
Create Rewrite HintDb observer_list.

(** ** Arrays *)

Section ArrayFacts.

Implicit Types (arr : list Obs) (i : Z) (x : Obs).

Lemma len_nonneg arr : 0 <= len arr.
Proof. unfold len. lia. Qed.

Lemma len_app arr arr' : len (arr ++ arr') = len arr + len arr'.
Proof. unfold len. rewrite length_app. lia. Qed.

Lemma strict_eq_true a b : strict_eq a b = true <-> a = b.
Proof. apply Nat.eqb_eq. Qed.

Lemma strict_eq_read_true (r : option Obs) x :
  strict_eq_read r x = true <-> r = Some x.
Proof.
  destruct r as [a|]; simpl.
  - rewrite strict_eq_true. split; congruence.
  - split; discriminate.
Qed.

Lemma arr_read_inside arr i :
  0 <= i < len arr -> arr_read arr i = nth_error arr (Z.to_nat i).
Proof.
  intros [Hlo _]. unfold arr_read.
  destruct (Z.ltb_spec i 0); [lia | reflexivity].
Qed.

Lemma arr_read_outside arr i :
  ~ (0 <= i < len arr) -> arr_read arr i = None.
Proof.
  intros Hout. unfold arr_read.
  destruct (Z.ltb_spec i 0); [reflexivity |].
  apply nth_error_None. unfold len in Hout. lia.
Qed.

Lemma arr_read_some arr i x :
  arr_read arr i = Some x -> 0 <= i < len arr /\ In x arr.
Proof.
  intros Hr. split.
  - destruct (Z_lt_dec i 0) as [Hneg | Hpos].
    + rewrite arr_read_outside in Hr by lia. discriminate.
    + destruct (Z_lt_dec i (len arr)); [lia |].
      rewrite arr_read_outside in Hr by lia. discriminate.
  - unfold arr_read in Hr. destruct (i <? 0); [discriminate |].
    eapply nth_error_In; eassumption.
Qed.

Lemma arr_read_nat arr (k : nat) : arr_read arr (Z.of_nat k) = nth_error arr k.
Proof.
  unfold arr_read. destruct (Z.ltb_spec (Z.of_nat k) 0); [lia |].
  now rewrite Nat2Z.id.
Qed.

(** [splice(index, 1)] at an index inside the array takes out that one
    element. *)
Lemma splice_one_inside arr i :
  0 <= i < len arr ->
  splice arr i 1 =
  (firstn (Z.to_nat i) arr ++ skipn (S (Z.to_nat i)) arr,
   firstn 1 (skipn (Z.to_nat i) arr)).
Proof.
  intros Hi. unfold splice, splice_start.
  destruct (Z.ltb_spec i 0); [lia |].
  replace (Z.min i (len arr)) with i by lia.
  replace (Z.min (Z.max 1 0) (len arr - i)) with 1 by lia.
  replace (Z.to_nat i + Z.to_nat 1)%nat with (S (Z.to_nat i)) by lia.
  reflexivity.
Qed.

(** [splice(-1, 1)] takes the last element out of an array that has one. *)
Lemma splice_minus_one arr :
  arr <> [] -> fst (splice arr (-1) 1) = removelast arr.
Proof.
  intros Hne. unfold splice, splice_start, len. simpl fst.
  assert (Hlen : (0 < length arr)%nat)
    by (destruct arr; [congruence | simpl; lia]).
  change (-1 <? 0) with true. cbv iota.
  replace (Z.max (Z.of_nat (length arr) + -1) 0)
    with (Z.of_nat (length arr) - 1) by lia.
  replace (Z.min (Z.max 1 0) (Z.of_nat (length arr) - (Z.of_nat (length arr) - 1)))
    with 1 by lia.
  replace (Z.to_nat (Z.of_nat (length arr) - 1)) with (pred (length arr)) by lia.
  replace (pred (length arr) + Z.to_nat 1)%nat with (length arr) by lia.
  rewrite skipn_all, app_nil_r.
  symmetry. apply removelast_firstn_len.
Qed.

(** On the empty array [splice] has nothing to take out. *)
Lemma splice_empty i k : splice [] i k = ([], []).
Proof.
  unfold splice. rewrite !firstn_nil, !skipn_nil, firstn_nil. reflexivity.
Qed.

Lemma nth_error_without arr (a j : nat) :
  nth_error (firstn a arr ++ skipn (S a) arr) j =
  if (j <? a)%nat then nth_error arr j else nth_error arr (S j).
Proof.
  destruct (Nat.ltb_spec j a) as [Hlt | Hge].
  - destruct (Nat.le_gt_cases (length arr) j) as [Hout | Hin].
    + assert (Hn : nth_error arr j = None) by now apply nth_error_None.
      rewrite Hn. apply nth_error_None.
      rewrite length_app, length_firstn, length_skipn. lia.
    + rewrite nth_error_app1 by (rewrite length_firstn; lia).
      rewrite nth_error_firstn.
      now rewrite (proj2 (Nat.ltb_lt j a) Hlt).
  - destruct (Nat.le_gt_cases (length arr) a) as [Hout | Hin].
    + rewrite (proj2 (nth_error_None arr (S j))) by lia.
      apply nth_error_None.
      rewrite length_app, length_firstn, length_skipn. lia.
    + rewrite nth_error_app2 by (rewrite length_firstn; lia).
      rewrite length_firstn, nth_error_skipn.
      f_equal. lia.
Qed.

Lemma count_occ_without arr (a : nat) x y :
  nth_error arr a = Some x ->
  count_occ Nat.eq_dec arr y =
  (count_occ Nat.eq_dec (firstn a arr ++ skipn (S a) arr) y
   + if Nat.eq_dec x y then 1 else 0)%nat.
Proof.
  revert a. induction arr as [| h t IH]; intros a Hn.
  - destruct a; discriminate.
  - destruct a as [| a'].
    + simpl in Hn. injection Hn as ->.
      cbn [firstn skipn app count_occ].
      destruct (Nat.eq_dec x y); lia.
    + simpl in Hn. specialize (IH a' Hn).
      change (firstn (S a') (h :: t) ++ skipn (S (S a')) (h :: t))
        with (h :: (firstn a' t ++ skipn (S a') t)).
      cbn [count_occ]. destruct (Nat.eq_dec h y); lia.
Qed.

End ArrayFacts.

#[export] Hint Rewrite len_app : observer_list.

(** ** ObserverList *)

Section ObserverListFacts.

Import ObserverList_prototype.

Implicit Types (this : ObserverList) (x : Obs) (i : Z).

Lemma count_nonneg this : 0 <= count this.
Proof. apply len_nonneg. Qed.

Lemma get_inside this i :
  0 <= i < count this -> get this i = nth_error (observerList this) (Z.to_nat i).
Proof.
  intros Hi. unfold get, count in *.
  destruct (Z.gtb_spec i (-1)); [| lia].
  destruct (Z.ltb_spec i (len (observerList this))); [| lia].
  simpl. now apply arr_read_inside.
Qed.

Lemma get_outside this i : ~ (0 <= i < count this) -> get this i = None.
Proof.
  intros Hi. unfold get, count in *.
  destruct (Z.gtb_spec i (-1)); simpl; [| reflexivity].
  destruct (Z.ltb_spec i (len (observerList this))); [lia | reflexivity].
Qed.

Lemma get_nat this (k : nat) :
  get this (Z.of_nat k) = nth_error (observerList this) k.
Proof.
  destruct (Nat.lt_ge_cases k (length (observerList this))) as [Hin | Hout].
  - rewrite get_inside by (unfold count, len; lia). now rewrite Nat2Z.id.
  - rewrite get_outside by (unfold count, len; lia).
    symmetry. now apply nth_error_None.
Qed.

Lemma add_eq this x :
  add this x = (mkObserverList (observerList this ++ [x]), count this + 1).
Proof.
  unfold add, push, count. rewrite len_app. reflexivity.
Qed.

Lemma list_after_adding_eq this (l : list Obs) :
  observerList (Scenario.list_after_adding this l) = observerList this ++ l.
Proof.
  unfold Scenario.list_after_adding.
  revert this. induction l as [| x l IH]; intros this; cbn [fold_left].
  - now rewrite app_nil_r.
  - rewrite IH, add_eq. simpl. now rewrite <- app_assoc.
Qed.

Lemma removeAt_inside this i :
  0 <= i < count this ->
  observerList (removeAt this i) =
  firstn (Z.to_nat i) (observerList this)
  ++ skipn (S (Z.to_nat i)) (observerList this).
Proof.
  intros Hi. unfold removeAt. now rewrite splice_one_inside.
Qed.

(** What the loop of [indexOf] returns, for as many turns as it can take:
    the first index from [i] on that holds [x], or -1 when there is none. *)
Lemma indexOf_while_spec (arr : list Obs) x :
  forall (fuel : nat) i, fuel = Z.to_nat (len arr - i) ->
    let r := indexOf_while fuel arr x i in
    (r = -1 /\ forall j, i <= j -> arr_read arr j <> Some x)
    \/ (i <= r /\ 0 <= r < len arr /\ arr_read arr r = Some x
        /\ forall j, i <= j < r -> arr_read arr j <> Some x).
Proof.
  induction fuel as [| fuel IH]; intros i Hfuel; simpl.
  - left. split; [reflexivity |].
    intros j Hj. rewrite arr_read_outside by lia. discriminate.
  - destruct (Z.ltb_spec i (len arr)) as [Hlt | Hge]; [| lia].
    destruct (strict_eq_read (arr_read arr i) x) eqn:Heq.
    + apply strict_eq_read_true in Heq.
      right. destruct (arr_read_some _ _ _ Heq) as [Hin _].
      split; [lia |]. split; [lia |]. split; [exact Heq |].
      intros j Hj. lia.
    + assert (Hne : arr_read arr i <> Some x).
      { intros Hc. apply strict_eq_read_true in Hc. congruence. }
      destruct (IH (i + 1) ltac:(lia)) as [[Hr Hall] | (Hle & Hin & Hat & Hall)].
      * left. split; [exact Hr |].
        intros j Hj. destruct (Z.eq_dec j i) as [-> | Hji]; [exact Hne |].
        apply Hall. lia.
      * right. split; [lia |]. split; [lia |]. split; [exact Hat |].
        intros j Hj. destruct (Z.eq_dec j i) as [-> | Hji]; [exact Hne |].
        apply Hall. lia.
Qed.

Lemma indexOf_absent this x :
  ~ In x (observerList this) -> indexOf this x (Some 0) = -1.
Proof.
  intros Hnot. unfold indexOf.
  destruct (indexOf_while_spec (observerList this) x _ 0 eq_refl)
    as [[Hr _] | (_ & _ & Hat & _)]; [exact Hr |].
  apply arr_read_some in Hat. tauto.
Qed.

(** The first occurrence of [x] at or after position [k]. *)
Lemma indexOf_first (pre post : list Obs) x (k : nat) :
  (k <= length pre)%nat -> ~ In x (skipn k pre) ->
  indexOf (mkObserverList (pre ++ x :: post)) x (Some (Z.of_nat k)) = len pre.
Proof.
  intros Hk Hnot. unfold indexOf. simpl observerList.
  set (arr := pre ++ x :: post).
  assert (Hat : arr_read arr (len pre) = Some x).
  { unfold len. rewrite arr_read_nat. unfold arr.
    rewrite nth_error_app2 by lia. now rewrite Nat.sub_diag. }
  destruct (indexOf_while_spec arr x _ (Z.of_nat k) eq_refl)
    as [[_ Hall] | (Hle & Hin & Hr & Hall)].
  - exfalso. apply (Hall (len pre)); [unfold len; lia | exact Hat].
  - set (r := indexOf_while _ arr x (Z.of_nat k)) in *.
    destruct (Z.lt_trichotomy r (len pre)) as [Hlt | [Heq | Hgt]].
    + exfalso. apply Hnot.
      replace r with (Z.of_nat (Z.to_nat r)) in Hr by lia.
      rewrite arr_read_nat in Hr. unfold arr, len in *.
      rewrite nth_error_app1 in Hr by lia.
      replace (Z.to_nat r) with (k + (Z.to_nat r - k))%nat in Hr by lia.
      rewrite <- nth_error_skipn in Hr.
      eapply nth_error_In; eassumption.
    + exact Heq.
    + exfalso. apply (Hall (len pre)); [unfold len in *; lia | exact Hat].
Qed.

End ObserverListFacts.

#[export] Hint Rewrite add_eq list_after_adding_eq : observer_list.

Section ObserverListClaims.

Import ObserverList_prototype.

(** C9: [add(x)] puts [x] at the end of the sequence and returns the new
    length, whatever the list and the observer; so on a fresh list the
    observers are those added, in the order of the calls, and [count()] is
    the number of calls, an observer added again being counted again. *)
Theorem add_appends_and_count_is_number_of_adds :
  forall (this : ObserverList) (x : Obs) (xs : list Obs),
    add this x
      = (mkObserverList (observerList this ++ [x]), count this + 1)
    /\ snd (add this x) = count (fst (add this x))
    /\ observerList (Scenario.list_after_adding ObserverList_new xs) = xs
    /\ count (Scenario.list_after_adding ObserverList_new xs)
       = Z.of_nat (length xs).
Proof.
  intros this x xs.
  assert (Hxs : observerList (Scenario.list_after_adding ObserverList_new xs) = xs)
    by (autorewrite with observer_list; reflexivity).
  split; [apply add_eq |].
  split.
  - autorewrite with observer_list. unfold count. simpl.
    now autorewrite with observer_list.
  - split; [exact Hxs |]. unfold count, len. now rewrite Hxs.
Qed.

(** C10: [get(i)] is the observer stored at position [i] when
    [0 <= i < count()], and [undefined] for every other integer [i],
    negative or too large; it never throws. *)
Theorem get_inside_and_outside_the_list :
  forall (this : ObserverList) (i : Z),
    (0 <= i < count this ->
     exists o, nth_error (observerList this) (Z.to_nat i) = Some o
               /\ get this i = Some o)
    /\ (~ (0 <= i < count this) -> get this i = None).
Proof.
  intros this i. split.
  - intros Hi. rewrite get_inside by exact Hi.
    destruct (nth_error (observerList this) (Z.to_nat i)) as [o |] eqn:Hn.
    + now exists o.
    + apply nth_error_None in Hn. unfold count, len in Hi. lia.
  - apply get_outside.
Qed.

(** C8: [removeAt(i)] at an index of the list takes out the one element at
    [i]: [count()] goes down by one, the elements before [i] stay where they
    were, each element after [i] moves down by one (so [get(i)] is what
    [get(i+1)] was), and of the observer that was at [i] exactly one
    occurrence is gone while every other observer occurs as often as
    before. *)
Theorem removeAt_takes_out_one_element :
  forall (this : ObserverList) (i : Z),
    0 <= i < count this ->
    let this' := removeAt this i in
    count this' = count this - 1
    /\ get this' i = get this (i + 1)
    /\ (forall j, j < i -> get this' j = get this j)
    /\ (forall j, i <= j -> get this' j = get this (j + 1))
    /\ exists x, get this i = Some x
        /\ forall y, count_occ Nat.eq_dec (observerList this) y
                     = (count_occ Nat.eq_dec (observerList this') y
                        + if Nat.eq_dec x y then 1 else 0)%nat.
Proof.
  intros this i Hi this'.
  assert (Hl : observerList this' =
               firstn (Z.to_nat i) (observerList this)
               ++ skipn (S (Z.to_nat i)) (observerList this))
    by (apply removeAt_inside; exact Hi).
  assert (Hshift : forall j, i <= j -> get this' j = get this (j + 1)).
  { intros j Hj.
    replace j with (Z.of_nat (Z.to_nat j)) by lia.
    replace (Z.of_nat (Z.to_nat j) + 1) with (Z.of_nat (S (Z.to_nat j))) by lia.
    rewrite !get_nat, Hl, nth_error_without.
    destruct (Nat.ltb_spec (Z.to_nat j) (Z.to_nat i)); [lia | reflexivity]. }
  unfold count, len in *.
  split.
  - rewrite Hl, length_app, length_firstn, length_skipn. lia.
  - split; [apply Hshift; lia |].
    split; [| split; [exact Hshift |]].
    + intros j Hj. destruct (Z_lt_dec j 0) as [Hneg | Hpos].
      * rewrite !get_outside by (unfold count, len; lia). reflexivity.
      * replace j with (Z.of_nat (Z.to_nat j)) by lia.
        rewrite !get_nat, Hl, nth_error_without.
        destruct (Nat.ltb_spec (Z.to_nat j) (Z.to_nat i)); [reflexivity | lia].
    + destruct (nth_error (observerList this) (Z.to_nat i)) as [x |] eqn:Hn.
      * exists x. split.
        -- rewrite get_inside by (unfold count, len; lia). exact Hn.
        -- intros y. rewrite Hl. now apply count_occ_without.
      * apply nth_error_None in Hn. lia.
Qed.

(** C8 at the list [A; B; A] and index 0. *)
Lemma removeAt_takes_out_one_element_witness :
  count (removeAt (mkObserverList [Scenario.A; Scenario.B; Scenario.A]) 0)
  = count (mkObserverList [Scenario.A; Scenario.B; Scenario.A]) - 1
  /\ get (removeAt (mkObserverList [Scenario.A; Scenario.B; Scenario.A]) 0) 0
     = get (mkObserverList [Scenario.A; Scenario.B; Scenario.A]) (0 + 1).
Proof.
  assert (Hi : 0 <= 0 <
               count (mkObserverList [Scenario.A; Scenario.B; Scenario.A]))
    by (unfold count, len; simpl; lia).
  destruct (removeAt_takes_out_one_element _ 0 Hi) as (Hc & Hg & _).
  split; [exact Hc | exact Hg].
Defined.

(** C7, as the code has it: with a start index [s] given, from [-2^53] up
    so that the counter of the loop counts exactly, [indexOf(x, s)] is the
    smallest index [i >= s] whose element is [x], and -1 when there is
    none; with the start index omitted, the loop is not entered and the
    result is -1. So once [x] is added to a list that did not hold it,
    [indexOf(x, 0)] is its position, and once it is added again, after any
    other observers, [indexOf(x, firstIndex + 1)] is the second position. *)
Theorem indexOf_first_match_from_given_start :
  forall (this : ObserverList) (x : Obs),
    (forall s : Z,
        counts_exactly s ->
        let r := indexOf this x (Some s) in
        (r = -1 /\ forall j, s <= j -> get this j <> Some x)
        \/ (s <= r /\ 0 <= r < count this /\ get this r = Some x
            /\ forall j, s <= j < r -> get this j <> Some x))
    /\ indexOf this x None = -1
    /\ (~ In x (observerList this) ->
        forall ys : list Obs, ~ In x ys ->
          let once := fst (add this x) in
          let twice := fst (add (Scenario.list_after_adding once ys) x) in
          let firstIndex := indexOf twice x (Some 0) in
          indexOf once x (Some 0) = count this
          /\ get once (count this) = Some x
          /\ firstIndex = count this
          /\ indexOf twice x (Some (firstIndex + 1))
             = count this + 1 + Z.of_nat (length ys)
          /\ get twice (count this + 1 + Z.of_nat (length ys)) = Some x).
Proof.
  intros this x.
  assert (Hget : forall j, get this j = arr_read (observerList this) j).
  { intros j. destruct (Z_lt_dec j 0) as [Hneg | Hpos].
    - rewrite get_outside, arr_read_outside by (unfold count; lia). reflexivity.
    - destruct (Z_lt_dec j (count this)) as [Hin | Hout].
      + rewrite get_inside, arr_read_inside by (unfold count in *; lia).
        reflexivity.
      + rewrite get_outside, arr_read_outside by (unfold count in *; lia).
        reflexivity. }
  split; [| split; [reflexivity |]].
  - intros s _ r. subst r. unfold indexOf, count.
    destruct (indexOf_while_spec (observerList this) x _ s eq_refl)
      as [[Hr Hall] | (Hle & Hin & Hat & Hall)].
    + left. split; [exact Hr |]. intros j Hj. rewrite Hget. now apply Hall.
    + right. split; [exact Hle |]. split; [exact Hin |].
      split; [rewrite Hget; exact Hat |].
      intros j Hj. rewrite Hget. now apply Hall.
  - intros Hnot ys Hys once twice firstIndex.
    destruct this as [l]. simpl in Hnot.
    assert (Honce : once = mkObserverList (l ++ [x]))
      by (unfold once; rewrite add_eq; reflexivity).
    assert (Htwice : twice = mkObserverList ((l ++ x :: ys) ++ x :: []))
      by (unfold twice; rewrite add_eq, list_after_adding_eq, Honce; simpl;
          do 2 f_equal; now rewrite <- app_assoc).
    assert (Hfirst : firstIndex = len l).
    { unfold firstIndex. rewrite Htwice, <- app_assoc. simpl app.
      apply (indexOf_first l (ys ++ [x]) x 0); [lia | exact Hnot]. }
    unfold count. simpl observerList.
    split; [rewrite Honce; apply (indexOf_first l [] x 0); [lia | exact Hnot] |].
    split.
    { rewrite Honce. unfold len. rewrite get_nat. simpl.
      rewrite nth_error_app2 by lia. now rewrite Nat.sub_diag. }
    split; [exact Hfirst |].
    assert (Hpos : len l + 1 + Z.of_nat (length ys) = len (l ++ x :: ys))
      by (rewrite len_app; unfold len; simpl length; lia).
    split.
    + rewrite Hfirst, Htwice, Hpos.
      replace (len l + 1) with (Z.of_nat (S (length l))) by (unfold len; lia).
      apply indexOf_first; [rewrite length_app; simpl; lia |].
      rewrite skipn_app, skipn_all2 by lia.
      replace (S (length l) - length l)%nat with 1%nat by lia.
      simpl. exact Hys.
    + rewrite Hpos, Htwice. unfold len. rewrite get_nat. simpl.
      rewrite nth_error_app2 by lia. now rewrite Nat.sub_diag.
Qed.

(** C7 on the list [A; B; A], scanned for [A] from the start index -3. *)
Lemma indexOf_first_match_from_given_start_witness :
  let this := mkObserverList [Scenario.A; Scenario.B; Scenario.A] in
  let r := indexOf this Scenario.A (Some (-3)) in
  (r = -1 /\ forall j, -3 <= j -> get this j <> Some Scenario.A)
  \/ (-3 <= r /\ 0 <= r < count this /\ get this r = Some Scenario.A
      /\ forall j, -3 <= j < r -> get this j <> Some Scenario.A).
Proof.
  assert (Hs : counts_exactly (-3)) by (unfold counts_exactly; lia).
  exact (proj1 (indexOf_first_match_from_given_start
                  (mkObserverList [Scenario.A; Scenario.B; Scenario.A])
                  Scenario.A) (-3) Hs).
Defined.

(** C7 fails as written: the list holds [A] at position 0, and [indexOf(A)]
    with the start index omitted is -1, not the 0 that a start index
    defaulting to 0 would give. *)
Lemma indexOf_omitted_start_finds_nothing :
  let this := fst (add ObserverList_new Scenario.A) in
  get this 0 = Some Scenario.A
  /\ indexOf this Scenario.A (Some 0) = 0
  /\ indexOf this Scenario.A None = -1
  /\ indexOf this Scenario.A None <> indexOf this Scenario.A (Some 0).
Proof.
  cbv zeta. split; [reflexivity |]. split; [reflexivity |].
  split; [reflexivity |]. discriminate.
Qed.

End ObserverListClaims.

(** ** Subject: removal *)

Section RemovalClaims.

Import ObserverList_prototype Subject_prototype.

(** C2: on a subject with observers, [removeObserver(x)] for an [x] that
    is not among them takes out the last one: [indexOf(x, 0)] is -1, the
    call is [removeAt(-1)], whose [splice(-1, 1)] removes one element from
    the end, and [count()] goes down by one. *)
Theorem removeObserver_of_absent_removes_last :
  forall (this : Subject) (x : Obs),
    observerList (observers this) <> [] ->
    ~ In x (observerList (observers this)) ->
    indexOf (observers this) x (Some 0) = -1
    /\ removeObserver this x = mkSubject (removeAt (observers this) (-1))
    /\ (exists last,
           observerList (observers this)
           = observerList (observers (removeObserver this x)) ++ [last])
    /\ count (observers (removeObserver this x)) = count (observers this) - 1.
Proof.
  intros this x Hne Hnot.
  assert (Hidx : indexOf (observers this) x (Some 0) = -1)
    by now apply indexOf_absent.
  assert (Hrm : observerList (observers (removeObserver this x))
                = removelast (observerList (observers this))).
  { unfold removeObserver. rewrite Hidx. simpl.
    now apply splice_minus_one. }
  destruct (exists_last Hne) as (init & last & Hl).
  assert (Hinit : removelast (observerList (observers this)) = init)
    by (rewrite Hl; apply removelast_last).
  split; [exact Hidx |].
  split; [unfold removeObserver; now rewrite Hidx |].
  split.
  - exists last. rewrite Hrm, Hinit. exact Hl.
  - unfold count. rewrite Hrm, Hinit, Hl, len_app. unfold len. simpl. lia.
Qed.

(** C2 on a subject with [A] then [B], asked to remove [C]. *)
Lemma removeObserver_of_absent_removes_last_witness :
  observerList
    (observers (removeObserver (Scenario.subject_after_adding
                                  [Scenario.A; Scenario.B]) Scenario.C))
  ++ [Scenario.B]
  = [Scenario.A; Scenario.B]
  /\ count (observers (removeObserver (Scenario.subject_after_adding
                                         [Scenario.A; Scenario.B]) Scenario.C))
     = count (observers (Scenario.subject_after_adding
                           [Scenario.A; Scenario.B])) - 1.
Proof.
  assert (Hne : observerList (observers (Scenario.subject_after_adding
                                           [Scenario.A; Scenario.B])) <> [])
    by (simpl; discriminate).
  assert (Hnot : ~ In Scenario.C
                   (observerList (observers (Scenario.subject_after_adding
                                               [Scenario.A; Scenario.B]))))
    by absent_from_list.
  destruct (removeObserver_of_absent_removes_last _ _ Hne Hnot)
    as (_ & _ & _ & Hc).
  split; [reflexivity | exact Hc].
Defined.

(** C1 does not hold of the code: the subject has [A] then [B], [C] was
    never added, and after [removeObserver(C)] the list is [A] alone and
    [count()] went from 2 to 1. The call returns; [B] is gone. *)
Theorem removeObserver_of_absent_changes_the_list :
  let this := Scenario.subject_after_adding [Scenario.A; Scenario.B] in
  let this' := removeObserver this Scenario.C in
  ~ In Scenario.C (observerList (observers this))
  /\ observerList (observers this) = [Scenario.A; Scenario.B]
  /\ count (observers this) = 2
  /\ observerList (observers this') = [Scenario.A]
  /\ count (observers this') = 1.
Proof.
  cbv zeta.
  split.
  - absent_from_list.
  - repeat split.
Qed.

(** Removing an observer that is registered takes out one occurrence of it,
    the first, and nothing else. *)
Lemma removeObserver_of_member_removes_one_occurrence (this : Subject) (x : Obs) :
  In x (observerList (observers this)) ->
  count (observers (removeObserver this x)) = count (observers this) - 1
  /\ forall y,
      count_occ Nat.eq_dec (observerList (observers this)) y
      = (count_occ Nat.eq_dec
           (observerList (observers (removeObserver this x))) y
         + if Nat.eq_dec x y then 1 else 0)%nat.
Proof.
  intros Hin. unfold removeObserver, indexOf. cbn [observers].
  set (l := observerList (observers this)) in *.
  destruct (indexOf_while_spec l x _ 0 eq_refl)
    as [[_ Hall] | (_ & Hr & Hat & _)].
  - exfalso. apply In_nth_error in Hin as [n Hn].
    apply (Hall (Z.of_nat n)); [lia |]. now rewrite arr_read_nat.
  - set (r := indexOf_while _ l x 0) in *.
    rewrite arr_read_inside in Hat by exact Hr.
    assert (Hrm : observerList (removeAt (observers this) r)
                  = firstn (Z.to_nat r) l ++ skipn (S (Z.to_nat r)) l)
      by (apply removeAt_inside; exact Hr).
    split.
    + unfold count. rewrite Hrm. fold l. unfold len in *.
      rewrite length_app, length_firstn, length_skipn.
      clearbody r l. lia.
    + intros y. rewrite Hrm. now apply count_occ_without.
Qed.

(** Only on a subject with no observer does removing an absent one change
    nothing. *)
Lemma removeObserver_on_empty (x : Obs) :
  removeObserver Subject_new x = Subject_new.
Proof. reflexivity. Qed.

End RemovalClaims.

(** ** Subject: dispatch *)

Section DispatchFacts.

Import ObserverList_prototype Subject_prototype Handlers.

Variables Ctx Heap : Type.
Variable update : update_method Ctx Heap.
Variable context : Ctx.

Implicit Types (w : World Heap) (made : calls Ctx) (i : Z).

Lemma skipn_nth_error (l : list Obs) (k : nat) (o : Obs) :
  nth_error l k = Some o -> skipn k l = o :: skipn (S k) l.
Proof.
  revert k. induction l as [| h t IH]; intros [| k] Hn; try discriminate.
  - simpl in Hn. now injection Hn as ->.
  - simpl in Hn. rewrite (skipn_cons k h t). now apply IH.
Qed.

Lemma firstn_skipn_app (l added : list Obs) (k t : nat) :
  (k + t <= length l)%nat ->
  firstn t (skipn k (l ++ added)) = firstn t (skipn k l).
Proof.
  intros Hk. rewrite skipn_app, firstn_app, length_skipn.
  replace (t - (length l - k))%nat with 0%nat by lia.
  now rewrite firstn_O, app_nil_r.
Qed.

(** A loop of [a + b] turns is a loop of [a] turns, then, if it returned,
    a loop of [b] turns from where it stopped. *)
Lemma notify_for_add (a b : nat) :
  forall i w made,
    notify_for update context (a + b) i w made =
    match notify_for update context a i w made with
    | (Normal, w', made') =>
        notify_for update context b (i + Z.of_nat a) w' made'
    | stopped => stopped
    end.
Proof.
  induction a as [| a IH]; intros i w made.
  - simpl. now rewrite Z.add_0_r.
  - cbn [Nat.add notify_for].
    destruct (get (observers (subject w)) i) as [o |]; [| reflexivity].
    destruct (update o context w) as [[| e] w1]; [| reflexivity].
    rewrite IH. now replace (i + 1 + Z.of_nat a) with (i + Z.of_nat (S a)) by lia.
Qed.

(** A loop that returns made one call per turn. *)
Lemma notify_for_returned_length (turns : nat) :
  forall i w made w' made',
    notify_for update context turns i w made = (Normal, w', made') ->
    length made' = (length made + turns)%nat.
Proof.
  induction turns as [| turns IH]; intros i w made w' made' Hrun.
  - simpl in Hrun. injection Hrun as _ <-. lia.
  - cbn [notify_for] in Hrun.
    destruct (get (observers (subject w)) i) as [o |]; [| discriminate].
    destruct (update o context w) as [[| e] w1]; [| discriminate].
    apply IH in Hrun. rewrite length_app in Hrun. simpl in Hrun. lia.
Qed.

(** When handlers return and only add observers, the loop meets, turn after
    turn, the observers that were in the list on entry. *)
Lemma notify_for_only_adds :
  only_adds update -> returns update ->
  forall (turns k : nat) w made,
    (k + turns <= length (registered w))%nat ->
    exists w' added,
      notify_for update context turns (Z.of_nat k) w made
      = (Normal, w',
         made ++ calls_for context (firstn turns (skipn k (registered w))))
      /\ registered w' = registered w ++ added.
Proof.
  intros Hadd Hret.
  induction turns as [| turns IH]; intros k w made Hk.
  - exists w, []. simpl. now rewrite !app_nil_r.
  - cbn [notify_for]. rewrite get_nat. fold (registered w).
    destruct (nth_error (registered w) k) as [o |] eqn:Hn;
      [| apply nth_error_None in Hn; lia].
    pose proof (Hret o context w) as Hc.
    destruct (Hadd o context w) as [added1 H1].
    destruct (update o context w) as [c w1]. simpl in Hc, H1. subst c.
    destruct (IH (S k) w1 (made ++ [(o, context)])) as (w' & added & Hrun & Hreg).
    { rewrite H1, length_app. lia. }
    exists w', (added1 ++ added).
    replace (Z.of_nat k + 1) with (Z.of_nat (S k)) by lia.
    rewrite Hrun, Hreg, H1, firstn_skipn_app by lia.
    rewrite (skipn_nth_error _ _ _ Hn). simpl.
    now rewrite <- !app_assoc.
Qed.

Lemma notify_only_adds :
  only_adds update -> returns update ->
  forall w, exists w' added,
      notify update context w = (Normal, w', calls_for context (registered w))
      /\ registered w' = registered w ++ added.
Proof.
  intros Hadd Hret w. unfold notify, count, len.
  rewrite Nat2Z.id. fold (registered w).
  destruct (notify_for_only_adds Hadd Hret (length (registered w)) 0 w [])
    as (w' & added & Hrun & Hreg); [simpl; lia |].
  exists w', added. simpl in Hrun.
  now rewrite firstn_all in Hrun.
Qed.

(** Handlers that keep the list leave it as it was when the loop ends,
    however it ends. *)
Lemma notify_for_keeps_list :
  keeps_list update ->
  forall (turns : nat) i w made,
    registered (snd (fst (notify_for update context turns i w made)))
    = registered w.
Proof.
  intros Hkeep. induction turns as [| turns IH]; intros i w made.
  - reflexivity.
  - cbn [notify_for].
    destruct (get (observers (subject w)) i) as [o |]; [| reflexivity].
    pose proof (Hkeep o context w) as H1.
    destruct (update o context w) as [[| e] w1]; simpl in H1.
    + now rewrite IH.
    + exact H1.
Qed.

Lemma keeps_list_only_adds : keeps_list update -> only_adds update.
Proof.
  intros Hkeep o c w. exists []. now rewrite app_nil_r.
Qed.

End DispatchFacts.

Section DispatchClaims.

Import ObserverList_prototype Subject_prototype Handlers.

(** C4, as the code has it: when no handler changes the observer list and
    none throws, [notify(ctx)] returns after calling [update] once for each
    occurrence of an observer in the list, in ascending index order, each
    with [ctx] itself, and the list is as it was. So after [add(A)],
    [add(B)], [add(A)] the count is 3 and the calls are those of [A], [B],
    [A], in that order, each with the argument of [notify]. *)
Theorem notify_calls_each_occurrence_once_in_order :
  forall (Ctx Heap : Type) (update : update_method Ctx Heap)
         (context : Ctx) (w : World Heap),
    keeps_list update -> returns update ->
    (exists w',
        notify update context w
        = (Normal, w', calls_for context (registered w))
        /\ registered w' = registered w)
    /\ forall (a b : Obs) (h : Heap),
        let s := Scenario.subject_after_adding [a; b; a] in
        count (observers s) = 3
        /\ snd (notify update context (mkWorld s h))
           = [(a, context); (b, context); (a, context)].
Proof.
  intros Ctx Heap update context w Hkeep Hret.
  assert (Hall : forall w0 : World Heap, exists w',
             notify update context w0
             = (Normal, w', calls_for context (registered w0))
             /\ registered w' = registered w0).
  { intros w0.
    destruct (notify_only_adds _ _ update context
                (keeps_list_only_adds _ _ update Hkeep) Hret w0)
      as (w' & added & Hrun & _).
    exists w'. split; [exact Hrun |].
    pose proof (notify_for_keeps_list _ _ update context Hkeep
                  (Z.to_nat (count (observers (subject w0)))) 0 w0 []) as Hk.
    fold (notify update context w0) in Hk. now rewrite Hrun in Hk. }
  split; [apply Hall |].
  intros a b h s. split; [reflexivity |].
  destruct (Hall (mkWorld s h)) as (w' & Hrun & _).
  now rewrite Hrun.
Qed.

(** C4 on the page of the example: three checkboxes [A], [B], [A] and
    [notify(true)]. *)
Lemma notify_calls_each_occurrence_once_in_order_witness :
  snd (notify Scenario.checkbox_update true
         (Scenario.page [Scenario.A; Scenario.B; Scenario.A]))
  = [(Scenario.A, true); (Scenario.B, true); (Scenario.A, true)].
Proof.
  assert (Hkeep : keeps_list Scenario.checkbox_update)
    by (intros o c w; reflexivity).
  assert (Hret : returns Scenario.checkbox_update)
    by (intros o c w; reflexivity).
  destruct (notify_calls_each_occurrence_once_in_order
              bool Scenario.Checked Scenario.checkbox_update true
              (Scenario.page [Scenario.A; Scenario.B; Scenario.A]) Hkeep Hret)
    as [_ Hscene].
  exact (proj2 (Hscene Scenario.A Scenario.B (fun _ => false))).
Defined.

(** C4 fails as written: [A]'s handler leaves the list alone and throws;
    [B] is in the list when [notify(5)] is called and its [update] is never
    called. *)
Lemma notify_stops_at_a_throwing_handler :
  let w := Scenario.bare [Scenario.A; Scenario.B] in
  keeps_list Scenario.failing_update
  /\ registered w = [Scenario.A; Scenario.B]
  /\ notify Scenario.failing_update 5 w = (Throw (Raised 7), w, [(Scenario.A, 5)])
  /\ ~ In (Scenario.B, 5) (snd (notify Scenario.failing_update 5 w)).
Proof.
  cbv zeta. split.
  - intros o c w. unfold Scenario.failing_update.
    destruct (strict_eq o Scenario.A); reflexivity.
  - split; [reflexivity |]. split; [reflexivity |].
    absent_from_list.
Qed.

(** C5: when the pass comes to index [i] (its first [i] turns returned) and
    the handler of the observer that [get(i)] gives throws [e], [notify]
    throws that same [e] to its caller, and the calls of the pass are the
    [i] calls made before and this one: no observer after [i] is called,
    nothing is retried. *)
Theorem notify_propagates_a_handler_error :
  forall (Ctx Heap : Type) (update : update_method Ctx Heap) (context : Ctx)
         (w w_i w' : World Heap) (i : nat) (made_i : calls Ctx)
         (o : Obs) (e : exn),
    (i < length (registered w))%nat ->
    notify_for update context i 0 w [] = (Normal, w_i, made_i) ->
    get (observers (subject w_i)) (Z.of_nat i) = Some o ->
    update o context w_i = (Throw e, w') ->
    notify update context w = (Throw e, w', made_i ++ [(o, context)])
    /\ length made_i = i.
Proof.
  intros Ctx Heap update context w w_i w' i made_i o e Hi Hrun Hget Hthrow.
  split.
  - unfold notify, count, len. rewrite Nat2Z.id. fold (registered w).
    replace (length (registered w))
      with (i + S (length (registered w) - S i))%nat by lia.
    rewrite notify_for_add, Hrun. cbn [notify_for]. simpl Z.add.
    now rewrite Hget, Hthrow.
  - apply notify_for_returned_length in Hrun. simpl in Hrun. exact Hrun.
Qed.

(** C5 on the list [B; A; C] where [A]'s handler throws 7: the calls are
    those of [B] and [A]. *)
Lemma notify_propagates_a_handler_error_witness :
  notify Scenario.failing_update 5
    (Scenario.bare [Scenario.B; Scenario.A; Scenario.C])
  = (Throw (Raised 7), Scenario.bare [Scenario.B; Scenario.A; Scenario.C],
     [(Scenario.B, 5)] ++ [(Scenario.A, 5)]).
Proof.
  refine (proj1 (notify_propagates_a_handler_error
                   Z unit Scenario.failing_update 5
                   (Scenario.bare [Scenario.B; Scenario.A; Scenario.C])
                   (Scenario.bare [Scenario.B; Scenario.A; Scenario.C])
                   (Scenario.bare [Scenario.B; Scenario.A; Scenario.C])
                   1%nat [(Scenario.B, 5)] Scenario.A (Raised 7) _ _ _ _)).
  - simpl. lia.
  - reflexivity.
  - reflexivity.
  - reflexivity.
Defined.

(** What the handlers of the examples do to the list. *)
Lemma registered_addObserver (Heap : Type) (w : World Heap) (o : Obs) (h : Heap) :
  registered (mkWorld (addObserver (subject w) o) h) = registered w ++ [o].
Proof.
  unfold registered, addObserver. cbn [subject observers].
  now rewrite add_eq.
Qed.

Lemma recruiting_only_adds : only_adds Scenario.recruiting_update.
Proof.
  intros o c w. unfold Scenario.recruiting_update.
  destruct (strict_eq o Scenario.A).
  - exists [Scenario.C]. apply registered_addObserver.
  - exists []. simpl. now rewrite app_nil_r.
Qed.

Lemma recruiting_returns : returns Scenario.recruiting_update.
Proof.
  intros o c w. unfold Scenario.recruiting_update.
  destruct (strict_eq o Scenario.A); reflexivity.
Qed.

(** C3, as the code has it: [notify] reads the count once and the list at
    every turn. When the handlers it runs return and do nothing to the list
    but add observers, the pass returns, and its calls are those of the
    observers that were in the list when it began, each occurrence once and
    in order: none is skipped, none is called twice. *)
Theorem notify_with_adding_handlers_covers_initial_list :
  forall (Ctx Heap : Type) (update : update_method Ctx Heap)
         (context : Ctx) (w : World Heap),
    only_adds update -> returns update ->
    exists w' added,
      notify update context w
      = (Normal, w', calls_for context (registered w))
      /\ registered w' = registered w ++ added
      /\ forall o,
          count_occ Nat.eq_dec (map fst (snd (notify update context w))) o
          = count_occ Nat.eq_dec (registered w) o.
Proof.
  intros Ctx Heap update context w Hadd Hret.
  destruct (notify_only_adds _ _ update context Hadd Hret w)
    as (w' & added & Hrun & Hreg).
  exists w', added. split; [exact Hrun |]. split; [exact Hreg |].
  intros o. rewrite Hrun. simpl snd. unfold calls_for.
  rewrite map_map. simpl. now rewrite map_id.
Qed.

(** C3 amended, on the list [A; B] where [A]'s handler adds [C]. *)
Lemma notify_with_adding_handlers_covers_initial_list_witness :
  exists w' added,
    notify Scenario.recruiting_update 5 (Scenario.bare [Scenario.A; Scenario.B])
    = (Normal, w',
       calls_for 5 (registered (Scenario.bare [Scenario.A; Scenario.B])))
    /\ registered w'
       = registered (Scenario.bare [Scenario.A; Scenario.B]) ++ added
    /\ forall o,
        count_occ Nat.eq_dec
          (map fst (snd (notify Scenario.recruiting_update 5
                           (Scenario.bare [Scenario.A; Scenario.B])))) o
        = count_occ Nat.eq_dec
            (registered (Scenario.bare [Scenario.A; Scenario.B])) o.
Proof.
  exact (notify_with_adding_handlers_covers_initial_list
           Z unit Scenario.recruiting_update 5
           (Scenario.bare [Scenario.A; Scenario.B])
           recruiting_only_adds recruiting_returns).
Defined.

(** C3 fails as written: the list is [A; B] and [A]'s handler removes [A].
    The pass calls [A], then reads index 1 of a list that has one element
    left: [notify(5)] throws a [TypeError], and [B], which was there from
    the start and is still registered, was never called. *)
Lemma notify_skips_and_throws_when_a_handler_removes :
  let w := Scenario.bare [Scenario.A; Scenario.B] in
  registered w = [Scenario.A; Scenario.B]
  /\ notify Scenario.leaving_update 5 w
     = (Throw TypeError, Scenario.bare [Scenario.B], [(Scenario.A, 5)])
  /\ registered (Scenario.bare [Scenario.B]) = [Scenario.B]
  /\ ~ In Scenario.B (map fst (snd (notify Scenario.leaving_update 5 w))).
Proof.
  cbv zeta. split; [reflexivity |]. split; [reflexivity |].
  split; [reflexivity |].
  absent_from_list.
Qed.

(** C6, as the code has it: when the handlers return and do nothing to the
    list but add observers, the observers added during a pass are at the
    end of the list when it returns, the pass made no call to an added
    observer that was not registered before, and the next [notify] calls
    the earlier observers and then the added ones. *)
Theorem observer_added_during_notify_is_called_by_the_next :
  forall (Ctx Heap : Type) (update : update_method Ctx Heap)
         (context context' : Ctx) (w : World Heap),
    only_adds update -> returns update ->
    exists w1 added w2,
      notify update context w
      = (Normal, w1, calls_for context (registered w))
      /\ registered w1 = registered w ++ added
      /\ length (snd (notify update context w)) = length (registered w)
      /\ fst (notify update context' w1)
         = (Normal, w2)
      /\ snd (notify update context' w1)
         = calls_for context' (registered w) ++ calls_for context' added
      /\ forall o, In o added -> ~ In o (registered w) ->
           ~ In o (map fst (snd (notify update context w)))
           /\ In (o, context') (snd (notify update context' w1)).
Proof.
  intros Ctx Heap update context context' w Hadd Hret.
  destruct (notify_only_adds _ _ update context Hadd Hret w)
    as (w1 & added & Hrun1 & Hreg1).
  destruct (notify_only_adds _ _ update context' Hadd Hret w1)
    as (w2 & added2 & Hrun2 & _).
  assert (Hfst : map fst (calls_for context (registered w)) = registered w).
  { unfold calls_for. rewrite map_map. simpl. apply map_id. }
  exists w1, added, w2.
  split; [exact Hrun1 |]. split; [exact Hreg1 |].
  rewrite Hrun1, Hrun2, Hreg1. simpl fst. simpl snd.
  split; [unfold calls_for; apply length_map |].
  split; [reflexivity |].
  split; [unfold calls_for; apply map_app |].
  intros o Hin Hnew. split.
  - now rewrite Hfst.
  - unfold calls_for. apply in_map_iff. exists o. split; [reflexivity |].
    apply in_or_app. now right.
Qed.

(** C6 amended, on the list [A; B] where [A]'s handler adds [C]:
    [notify(5)], then [notify(6)]. *)
Lemma observer_added_during_notify_is_called_by_the_next_witness :
  exists w1 added w2,
    notify Scenario.recruiting_update 5 (Scenario.bare [Scenario.A; Scenario.B])
    = (Normal, w1,
       calls_for 5 (registered (Scenario.bare [Scenario.A; Scenario.B])))
    /\ registered w1
       = registered (Scenario.bare [Scenario.A; Scenario.B]) ++ added
    /\ length (snd (notify Scenario.recruiting_update 5
                      (Scenario.bare [Scenario.A; Scenario.B])))
       = length (registered (Scenario.bare [Scenario.A; Scenario.B]))
    /\ fst (notify Scenario.recruiting_update 6 w1) = (Normal, w2)
    /\ snd (notify Scenario.recruiting_update 6 w1)
       = calls_for 6 (registered (Scenario.bare [Scenario.A; Scenario.B]))
         ++ calls_for 6 added
    /\ forall o, In o added ->
         ~ In o (registered (Scenario.bare [Scenario.A; Scenario.B])) ->
         ~ In o (map fst (snd (notify Scenario.recruiting_update 5
                                 (Scenario.bare [Scenario.A; Scenario.B]))))
         /\ In (o, 6) (snd (notify Scenario.recruiting_update 6 w1)).
Proof.
  exact (observer_added_during_notify_is_called_by_the_next
           Z unit Scenario.recruiting_update 5 6
           (Scenario.bare [Scenario.A; Scenario.B])
           recruiting_only_adds recruiting_returns).
Defined.

(** C6 fails as written: the list is [A; B] and [A]'s handler adds [C],
    which was not registered, and removes [A]. The list becomes [B; C], the
    pass reads index 1 and calls [C]: the observer added during the pass is
    called by that same pass. *)
Lemma observer_added_and_called_in_the_same_pass :
  let w := Scenario.bare [Scenario.A; Scenario.B] in
  ~ In Scenario.C (registered w)
  /\ notify Scenario.replacing_update 5 w
     = (Normal, Scenario.bare [Scenario.B; Scenario.C],
        [(Scenario.A, 5); (Scenario.C, 5)])
  /\ In Scenario.C (map fst (snd (notify Scenario.replacing_update 5 w))).
Proof.
  cbv zeta. split.
  - absent_from_list.
  - split; [reflexivity |]. simpl. right. now left.
Qed.

End DispatchClaims.

(** ** ObserverList: indices out of range, and how the methods compose *)

Section ObserverListEdges.

Import ObserverList_prototype.

Implicit Types (this : ObserverList) (x : Obs) (i : Z).

(** What [splice(index, 1)] takes out, for any index: the array is cut in
    three at the clamped start, and the middle part, of one element or
    none, is dropped. *)
Lemma splice_one_cut (arr : list Obs) i :
  let a := Z.to_nat (splice_start (len arr) i) in
  let k := Z.to_nat (Z.min 1 (len arr - splice_start (len arr) i)) in
  arr = firstn a arr ++ firstn k (skipn a arr) ++ skipn (a + k) arr
  /\ fst (splice arr i 1) = firstn a arr ++ skipn (a + k) arr
  /\ (k <= 1)%nat
  /\ (a + k <= length arr)%nat
  /\ (k = 0%nat <-> len arr <= i \/ arr = []).
Proof.
  intros a k.
  assert (Hn : 0 <= len arr) by apply len_nonneg.
  assert (Hnil : arr = [] <-> len arr = 0).
  { unfold len. destruct arr; simpl; split; intros H; try reflexivity;
      try discriminate; lia. }
  assert (Hs : 0 <= splice_start (len arr) i <= len arr)
    by (unfold splice_start; destruct (Z.ltb_spec i 0); lia).
  assert (Hs' : splice_start (len arr) i = len arr <-> len arr <= i \/ len arr = 0).
  { unfold splice_start. destruct (Z.ltb_spec i 0); lia. }
  split; [| split; [| split; [| split]]].
  - rewrite (Nat.add_comm a k), <- (skipn_skipn k a arr).
    rewrite (firstn_skipn k (skipn a arr)).
    symmetry. apply firstn_skipn.
  - reflexivity.
  - unfold k. lia.
  - unfold a, k, len in *. lia.
  - rewrite Hnil. unfold k. lia.
Qed.

(** X1: [removeAt(i)] with [i] at or past the end of the list ([i >=
    count()], as index 10 on a list of three) removes nothing: the list
    is as it was, and nothing is signalled. *)
Theorem removeAt_past_the_end_changes_nothing :
  forall this i, count this <= i -> removeAt this i = this.
Proof.
  intros [l] i Hi. unfold removeAt, count in *. cbn [observerList] in *.
  destruct (splice_one_cut l i) as (Hcut & Hres & _ & _ & Hk).
  rewrite Hres. f_equal.
  assert (Hz : Z.to_nat (Z.min 1 (len l - splice_start (len l) i)) = 0%nat)
    by (apply Hk; now left).
  rewrite Hz in *. cbn [firstn app] in Hcut. now symmetry.
Qed.

(** X1 on the list [A; B; C] and index 10. *)
Lemma removeAt_past_the_end_changes_nothing_witness :
  removeAt (mkObserverList [Scenario.A; Scenario.B; Scenario.C]) 10
  = mkObserverList [Scenario.A; Scenario.B; Scenario.C].
Proof.
  apply removeAt_past_the_end_changes_nothing.
  unfold count, len. simpl. lia.
Defined.

(** X2: a negative index counts from the end: on a list that is not empty,
    [removeAt(i)] with [i < 0] removes the element at position
    [count() + i], or the first element when that is below 0; [count()]
    goes down by one. So [removeAt(-1)] removes the last element. *)
Theorem removeAt_negative_index_counts_from_the_end :
  forall this i,
    i < 0 -> observerList this <> [] ->
    let p := Z.max (count this + i) 0 in
    observerList (removeAt this i)
    = firstn (Z.to_nat p) (observerList this)
      ++ skipn (S (Z.to_nat p)) (observerList this)
    /\ count (removeAt this i) = count this - 1
    /\ (forall j, j < p -> get (removeAt this i) j = get this j)
    /\ (forall j, p <= j -> get (removeAt this i) j = get this (j + 1)).
Proof.
  intros this i Hi Hne p.
  assert (Hpos : 0 < count this).
  { unfold count, len. destruct (observerList this); [congruence | simpl; lia]. }
  assert (Hl : observerList (removeAt this i)
               = firstn (Z.to_nat p) (observerList this)
                 ++ skipn (S (Z.to_nat p)) (observerList this)).
  { unfold removeAt. cbn [observerList]. unfold splice. cbn [fst].
    unfold splice_start. destruct (Z.ltb_spec i 0); [| lia].
    fold (count this). fold p.
    replace (Z.to_nat (Z.min (Z.max 1 0) (count this - p))) with 1%nat by lia.
    now rewrite Nat.add_1_r. }
  split; [exact Hl |].
  split.
  - unfold count, len in *. rewrite Hl, length_app, length_firstn, length_skipn. lia.
  - split; intros j Hj.
    + destruct (Z_lt_dec j 0) as [Hneg | Hnn].
      * rewrite !get_outside by (pose proof (count_nonneg (removeAt this i)); lia).
        reflexivity.
      * replace j with (Z.of_nat (Z.to_nat j)) by lia.
        rewrite !get_nat, Hl, nth_error_without.
        destruct (Nat.ltb_spec (Z.to_nat j) (Z.to_nat p)); [reflexivity | lia].
    + replace j with (Z.of_nat (Z.to_nat j)) by lia.
      replace (Z.of_nat (Z.to_nat j) + 1) with (Z.of_nat (S (Z.to_nat j))) by lia.
      rewrite !get_nat, Hl, nth_error_without.
      destruct (Nat.ltb_spec (Z.to_nat j) (Z.to_nat p)); [lia | reflexivity].
Qed.

(** X2 on the list [A; B; C] and index -2, which removes [B]. *)
Lemma removeAt_negative_index_counts_from_the_end_witness :
  observerList (removeAt (mkObserverList [Scenario.A; Scenario.B; Scenario.C]) (-2))
  = [Scenario.A; Scenario.C].
Proof.
  assert (Hne : observerList (mkObserverList [Scenario.A; Scenario.B; Scenario.C])
                <> []) by (simpl; discriminate).
  destruct (removeAt_negative_index_counts_from_the_end
              (mkObserverList [Scenario.A; Scenario.B; Scenario.C]) (-2)
              ltac:(lia) Hne) as (Hl & _).
  exact Hl.
Defined.

(** X3: whatever the index, [removeAt] removes at most one element and
    moves none: the list after is the list before with one run of at most
    one element cut out, and that run is empty exactly when the index is at
    or past the end or the list is empty. *)
Theorem removeAt_removes_at_most_one_and_keeps_order :
  forall this i,
    exists pre removed post,
      observerList this = pre ++ removed ++ post
      /\ observerList (removeAt this i) = pre ++ post
      /\ (length removed <= 1)%nat
      /\ (removed = [] <-> count this <= i \/ observerList this = []).
Proof.
  intros [l] i. unfold removeAt, count. cbn [observerList].
  destruct (splice_one_cut l i) as (Hcut & Hres & Hk1 & Hak & Hk).
  set (a := Z.to_nat (splice_start (len l) i)) in *.
  set (k := Z.to_nat (Z.min 1 (len l - splice_start (len l) i))) in *.
  exists (firstn a l), (firstn k (skipn a l)), (skipn (a + k) l).
  split; [exact Hcut |]. split; [exact Hres |].
  split; [rewrite length_firstn; lia |].
  rewrite <- Hk. split.
  - intros Hnil. apply (f_equal (@length Obs)) in Hnil.
    rewrite length_firstn, length_skipn in Hnil. simpl in Hnil. lia.
  - intros ->. reflexivity.
Qed.

End ObserverListEdges.

Section ObserverListComposition.

Import ObserverList_prototype Subject_prototype.

Implicit Types (this : ObserverList) (x : Obs) (i : Z).

(** Two results that both meet the description of [indexOf_while_spec],
    one for a start at or below 0 and one for 0, are the same result. *)
Lemma first_match_unique (arr : list Obs) x (s r r0 : Z) :
  s <= 0 ->
  (r = -1 /\ (forall j, s <= j -> arr_read arr j <> Some x)
   \/ s <= r /\ 0 <= r < len arr /\ arr_read arr r = Some x
      /\ (forall j, s <= j < r -> arr_read arr j <> Some x)) ->
  (r0 = -1 /\ (forall j, 0 <= j -> arr_read arr j <> Some x)
   \/ 0 <= r0 /\ 0 <= r0 < len arr /\ arr_read arr r0 = Some x
      /\ (forall j, 0 <= j < r0 -> arr_read arr j <> Some x)) ->
  r = r0.
Proof.
  intros Hs [[Hr Hall] | (_ & Hin & Hat & Hmin)]
         [[Hr0 Hall0] | (_ & Hin0 & Hat0 & Hmin0)].
  - congruence.
  - exfalso. apply (Hall r0); [lia | exact Hat0].
  - exfalso. apply (Hall0 r); [lia | exact Hat].
  - destruct (Z.lt_trichotomy r r0) as [Hlt | [Heq | Hgt]].
    + exfalso. apply (Hmin0 r); [lia | exact Hat].
    + exact Heq.
    + exfalso. apply (Hmin r0); [lia | exact Hat0].
Qed.

(** X4: the start index is where the scan begins, nothing more: a start
    index below 0, from [-2^53] up so that the counter counts exactly,
    gives what start index 0 gives (it does not count from the end), and a
    start index at or past the end gives -1. *)
Theorem indexOf_start_below_zero_or_past_the_end :
  forall this x (s : Z),
    (counts_exactly s -> s <= 0 ->
     indexOf this x (Some s) = indexOf this x (Some 0))
    /\ (count this <= s -> indexOf this x (Some s) = -1).
Proof.
  intros this x s. split.
  - intros _ Hs. unfold indexOf.
    apply (first_match_unique (observerList this) x s _ _ Hs).
    + apply (indexOf_while_spec (observerList this) x _ s eq_refl).
    + apply (indexOf_while_spec (observerList this) x _ 0 eq_refl).
  - intros Hs. unfold indexOf, count in *.
    replace (Z.to_nat (len (observerList this) - s)) with 0%nat by lia.
    reflexivity.
Qed.

(** X4 on the list [B; A], scanned for [A] from the start index -3. *)
Lemma indexOf_start_below_zero_or_past_the_end_witness :
  indexOf (mkObserverList [Scenario.B; Scenario.A]) Scenario.A (Some (-3))
  = indexOf (mkObserverList [Scenario.B; Scenario.A]) Scenario.A (Some 0).
Proof.
  assert (Hs : counts_exactly (-3)) by (unfold counts_exactly; lia).
  exact (proj1 (indexOf_start_below_zero_or_past_the_end
                  (mkObserverList [Scenario.B; Scenario.A]) Scenario.A (-3))
               Hs ltac:(lia)).
Defined.

(** X5: [indexOf(x, 0)] tells whether [x] is registered: it is -1 exactly
    when [x] is not in the list, and otherwise it is an index at which
    [get] gives [x]. *)
Theorem indexOf_from_zero_decides_membership :
  forall this x,
    (indexOf this x (Some 0) = -1 <-> ~ In x (observerList this))
    /\ (indexOf this x (Some 0) <> -1 ->
        get this (indexOf this x (Some 0)) = Some x).
Proof.
  intros this x. unfold indexOf.
  destruct (indexOf_while_spec (observerList this) x _ 0 eq_refl)
    as [[Hr Hall] | (_ & Hin & Hat & _)].
  - split; [| intros Hne; contradiction].
    split; [| intros _; exact Hr].
    intros _ Hmem. apply In_nth_error in Hmem as [n Hn].
    apply (Hall (Z.of_nat n)); [lia |]. now rewrite arr_read_nat.
  - set (r := indexOf_while _ (observerList this) x 0) in *.
    split.
    + split; [intros Hr; lia |].
      intros Hnot. exfalso. apply Hnot.
      now apply arr_read_some in Hat.
    + intros _. rewrite get_inside by exact Hin.
      now rewrite <- arr_read_inside by exact Hin.
Qed.

(** X6: what [add] returns is one more than the index at which [get] then
    gives the added observer, and [get] at every other index is what it was
    before the call. *)
Theorem get_after_add :
  forall this x,
    get (fst (add this x)) (snd (add this x) - 1) = Some x
    /\ forall i, i <> snd (add this x) - 1 ->
         get (fst (add this x)) i = get this i.
Proof.
  intros [l] x. rewrite add_eq. cbn [fst snd]. unfold count. cbn [observerList].
  replace (len l + 1 - 1) with (len l) by lia.
  split.
  - unfold len. rewrite get_nat. cbn [observerList].
    rewrite nth_error_app2 by lia. now rewrite Nat.sub_diag.
  - intros i Hi. destruct (Z_lt_dec i 0) as [Hneg | Hnn].
    + rewrite !get_outside by (unfold count, len; cbn [observerList]; lia).
      reflexivity.
    + replace i with (Z.of_nat (Z.to_nat i)) by lia.
      rewrite !get_nat. cbn [observerList]. unfold len in Hi.
      destruct (Nat.lt_ge_cases (Z.to_nat i) (length l)) as [Hin | Hout].
      * now rewrite nth_error_app1.
      * rewrite (proj2 (nth_error_None l (Z.to_nat i))) by lia.
        apply nth_error_None. rewrite length_app. simpl. lia.
Qed.

(** X7: [removeAt] undoes [add]: after [add(x)], removing at the index
    where [x] was put (the count before the call), or at -1, gives back the
    list as it was. *)
Theorem removeAt_undoes_add :
  forall this x,
    removeAt (fst (add this x)) (count this) = this
    /\ removeAt (fst (add this x)) (-1) = this.
Proof.
  intros [l] x. rewrite add_eq. cbn [fst]. unfold count. cbn [observerList].
  split.
  - unfold removeAt. cbn [observerList].
    rewrite splice_one_inside by (rewrite len_app; unfold len; simpl; lia).
    cbn [fst]. f_equal. unfold len. rewrite Nat2Z.id.
    rewrite firstn_app, Nat.sub_diag, firstn_all. cbn [firstn].
    rewrite skipn_all2 by (rewrite length_app; simpl; lia).
    now rewrite !app_nil_r.
  - unfold removeAt. cbn [observerList].
    rewrite splice_minus_one by (destruct l; discriminate).
    f_equal. apply removelast_last.
Qed.

End ObserverListComposition.

(** ** Subject: removal of a registered observer *)

Section SubjectComposition.

Import ObserverList_prototype Subject_prototype.

(** X8: [removeObserver(x)] on a subject where [x] is registered removes
    the first occurrence of [x], and leaves every other element, later
    occurrences of [x] among them, in place and in order. *)
Theorem removeObserver_removes_first_occurrence :
  forall (this : Subject) (x : Obs) (pre post : list Obs),
    observerList (observers this) = pre ++ x :: post ->
    ~ In x pre ->
    observerList (observers (removeObserver this x)) = pre ++ post.
Proof.
  intros [[l]] x pre post Hl Hnot. cbn [observers observerList] in Hl. subst l.
  unfold removeObserver. cbn [observers].
  pose proof (indexOf_first pre post x 0 ltac:(lia) Hnot) as Hidx.
  change (Z.of_nat 0) with 0 in Hidx. rewrite Hidx.
  rewrite removeAt_inside
    by (unfold count, len; cbn [observerList]; rewrite length_app; simpl; lia).
  cbn [observerList]. unfold len. rewrite Nat2Z.id.
  rewrite firstn_app, Nat.sub_diag, firstn_all. cbn [firstn].
  rewrite app_nil_r. f_equal.
  rewrite skipn_app, skipn_all2 by lia.
  replace (S (length pre) - length pre)%nat with 1%nat by lia.
  reflexivity.
Qed.

(** X8 on the list [B; A; C; A], from which the first [A] goes. *)
Lemma removeObserver_removes_first_occurrence_witness :
  observerList
    (observers (removeObserver
                  (Scenario.subject_after_adding
                     [Scenario.B; Scenario.A; Scenario.C; Scenario.A])
                  Scenario.A))
  = [Scenario.B] ++ [Scenario.C; Scenario.A].
Proof.
  apply removeObserver_removes_first_occurrence.
  - reflexivity.
  - absent_from_list.
Defined.

(** X9: [removeObserver(x)] right after [addObserver(x)] always brings
    [count()] back to what it was; it brings the subject itself back when
    [x] was not registered before. When [x] was registered, it is the
    earlier occurrence that goes and the new one stays at the end. *)
Theorem removeObserver_after_addObserver :
  forall (this : Subject) (x : Obs),
    count (observers (removeObserver (addObserver this x) x))
    = count (observers this)
    /\ (~ In x (observerList (observers this)) ->
        removeObserver (addObserver this x) x = this)
    /\ (forall pre post,
           observerList (observers this) = pre ++ x :: post -> ~ In x pre ->
           observerList (observers (removeObserver (addObserver this x) x))
           = pre ++ post ++ [x]).
Proof.
  intros [[l]] x.
  assert (Hadd : observerList (observers (addObserver (mkSubject (mkObserverList l)) x))
                 = l ++ [x])
    by (unfold addObserver; cbn [observers]; now rewrite add_eq).
  assert (Hfresh : ~ In x l ->
                   removeObserver (addObserver (mkSubject (mkObserverList l)) x) x
                   = mkSubject (mkObserverList l)).
  { intros Hnot.
    pose proof (removeObserver_removes_first_occurrence _ x l [] Hadd Hnot) as Hrm.
    rewrite app_nil_r in Hrm.
    destruct (removeObserver _ x) as [[l']]. cbn [observers observerList] in Hrm.
    now subst l'. }
  assert (Hdup : forall pre post, l = pre ++ x :: post -> ~ In x pre ->
            observerList (observers
              (removeObserver (addObserver (mkSubject (mkObserverList l)) x) x))
            = pre ++ post ++ [x]).
  { intros pre post Hl Hnot.
    apply removeObserver_removes_first_occurrence; [| exact Hnot].
    rewrite Hadd, Hl, <- app_assoc. reflexivity. }
  cbn [observers observerList].
  split; [| split; [exact Hfresh | exact Hdup]].
  destruct (in_dec Nat.eq_dec x l) as [Hin | Hnot].
  - destruct (in_split x l Hin) as (l1 & l2 & Hl).
    assert (Hfirst : exists pre post, l = pre ++ x :: post /\ ~ In x pre).
    { clear Hadd Hfresh Hdup Hin. revert l1 l2 Hl.
      induction l as [| h t IH]; intros l1 l2 Hl.
      - destruct l1; discriminate.
      - destruct (Nat.eq_dec h x) as [-> | Hne].
        + exists [], t. split; [reflexivity | intros []].
        + destruct l1 as [| h1 l1]; simpl in Hl; injection Hl as Hh Ht.
          * congruence.
          * destruct (IH l1 l2 Ht) as (pre & post & Ht' & Hpre).
            exists (h :: pre), post. split; [now rewrite Ht' |].
            simpl. intros [Heq | Hin']; [congruence | contradiction]. }
    destruct Hfirst as (pre & post & Hl' & Hpre).
    unfold count. rewrite (Hdup pre post Hl' Hpre). cbn [observerList].
    rewrite Hl'. unfold len.
    repeat (rewrite length_app || cbn [length]). lia.
  - now rewrite (Hfresh Hnot).
Qed.

(** X10: [removeObserver] shrinks every list that is not empty, whether or
    not the observer is registered: [count()] afterwards is one less, and
    it stays 0 on an empty list. *)
Theorem removeObserver_always_removes_one :
  forall (this : Subject) (x : Obs),
    count (observers (removeObserver this x))
    = Z.max (count (observers this) - 1) 0.
Proof.
  intros this x.
  destruct (in_dec Nat.eq_dec x (observerList (observers this))) as [Hin | Hnot].
  - destruct (removeObserver_of_member_removes_one_occurrence this x Hin)
      as [Hc _].
    rewrite Hc. unfold count, len. revert Hin.
    destruct (observerList (observers this)); intros Hin;
      [contradiction | cbn [length]; lia].
  - unfold removeObserver. rewrite (indexOf_absent _ _ Hnot).
    unfold removeAt, count. cbn [observers observerList].
    destruct (observerList (observers this)) as [| h t] eqn:Hl.
    + reflexivity.
    + rewrite splice_minus_one by discriminate.
      destruct (exists_last (l := h :: t) ltac:(discriminate))
        as (init & last & Heq).
      rewrite Heq, removelast_last. unfold len. rewrite length_app.
      cbn [length]. lia.
Qed.

End SubjectComposition.

(** ** Dispatch, whatever the handlers do *)

Section DispatchBounds.

Import ObserverList_prototype Subject_prototype Handlers Resizing.

Variables Ctx Heap : Type.
Variable update : update_method Ctx Heap.
Variable context : Ctx.

Implicit Types (w : World Heap) (made : calls Ctx).

(** However the loop ends, it made at most one call per turn, each with the
    argument of [notify]; and one per turn when it returned. *)
Lemma notify_for_calls (turns : nat) :
  forall i w made,
    exists more,
      snd (notify_for update context turns i w made) = made ++ more
      /\ (length more <= turns)%nat
      /\ Forall (fun call => snd call = context) more
      /\ (fst (fst (notify_for update context turns i w made)) = Normal ->
          length more = turns).
Proof.
  induction turns as [| turns IH]; intros i w made.
  - exists []. simpl. rewrite app_nil_r. repeat split; auto.
  - cbn [notify_for].
    destruct (get (observers (subject w)) i) as [o |].
    + destruct (update o context w) as [[| e] w1].
      * destruct (IH (i + 1) w1 (made ++ [(o, context)]))
          as (more & Hm & Hlen & Hall & Hn).
        exists ((o, context) :: more).
        rewrite Hm, <- app_assoc. simpl.
        repeat split; [lia | now constructor | intros H; rewrite Hn; auto].
      * exists [(o, context)]. simpl.
        repeat split; [lia | now repeat constructor | discriminate].
    + exists []. simpl. rewrite app_nil_r.
      repeat split; [lia | constructor | discriminate].
Qed.

(** Handlers that return and never shrink the list keep every index below
    the count on entry inside the list: the loop returns. *)
Lemma notify_for_never_shrinks :
  never_shrinks update -> returns update ->
  forall (turns k : nat) w made,
    (k + turns <= length (registered w))%nat ->
    exists w' made',
      notify_for update context turns (Z.of_nat k) w made = (Normal, w', made')
      /\ (length (registered w) <= length (registered w'))%nat.
Proof.
  intros Hgrow Hret.
  induction turns as [| turns IH]; intros k w made Hk.
  - exists w, made. split; [reflexivity | lia].
  - cbn [notify_for]. rewrite get_nat. fold (registered w).
    destruct (nth_error (registered w) k) as [o |] eqn:Hn;
      [| apply nth_error_None in Hn; lia].
    pose proof (Hret o context w) as Hc.
    pose proof (Hgrow o context w) as Hg.
    destruct (update o context w) as [c w1]. simpl in Hc, Hg. subst c.
    destruct (IH (S k) w1 (made ++ [(o, context)]) ltac:(lia))
      as (w' & made' & Hrun & Hlen).
    exists w', made'.
    replace (Z.of_nat k + 1) with (Z.of_nat (S k)) by lia.
    split; [exact Hrun | lia].
Qed.

(** When no handler throws, the loop can only throw the [TypeError] of a
    read past the end of the list, which by then is shorter than the
    index range the loop was to cover. *)
Lemma notify_for_throws_when_shrunk :
  returns update ->
  forall (turns k : nat) w made e w' made',
    notify_for update context turns (Z.of_nat k) w made = (Throw e, w', made') ->
    e = TypeError /\ (length (registered w') < k + turns)%nat.
Proof.
  intros Hret.
  induction turns as [| turns IH]; intros k w made e w' made' Hrun.
  - discriminate.
  - cbn [notify_for] in Hrun. rewrite get_nat in Hrun. fold (registered w) in Hrun.
    destruct (nth_error (registered w) k) as [o |] eqn:Hn.
    + pose proof (Hret o context w) as Hc.
      destruct (update o context w) as [c w1]. simpl in Hc. subst c.
      replace (Z.of_nat k + 1) with (Z.of_nat (S k)) in Hrun by lia.
      apply IH in Hrun. split; [tauto | lia].
    + injection Hrun as <- <- _. apply nth_error_None in Hn.
      split; [reflexivity | lia].
Qed.

(** Handlers that keep the list meet its observers in order until one
    throws. *)
Lemma notify_for_keeps_prefix :
  keeps_list update ->
  forall (turns k : nat) w made,
    (k + turns <= length (registered w))%nat ->
    exists n,
      (n <= turns)%nat
      /\ snd (notify_for update context turns (Z.of_nat k) w made)
         = made ++ calls_for context (firstn n (skipn k (registered w)))
      /\ (fst (fst (notify_for update context turns (Z.of_nat k) w made)) = Normal
          -> n = turns).
Proof.
  intros Hkeep.
  induction turns as [| turns IH]; intros k w made Hk.
  - exists 0%nat. simpl. rewrite app_nil_r. auto.
  - cbn [notify_for]. rewrite get_nat. fold (registered w).
    destruct (nth_error (registered w) k) as [o |] eqn:Hn;
      [| apply nth_error_None in Hn; lia].
    pose proof (Hkeep o context w) as H1.
    rewrite (skipn_nth_error _ _ _ Hn).
    destruct (update o context w) as [[| e] w1]; simpl in H1.
    + destruct (IH (S k) w1 (made ++ [(o, context)])) as (n & Hle & Hcalls & Hn');
        [rewrite H1; lia |].
      replace (Z.of_nat k + 1) with (Z.of_nat (S k)) by lia.
      exists (S n). rewrite Hcalls, H1, <- app_assoc. simpl.
      repeat split; [lia | intros H; rewrite Hn'; auto].
    + exists 1%nat. simpl. repeat split; [lia | discriminate].
Qed.

End DispatchBounds.

Section DispatchEdges.

Import ObserverList_prototype Subject_prototype Handlers Resizing.

(** What the handlers of the examples do. *)
Lemma removeAt_length_ge (this : ObserverList) (i : Z) :
  (length (observerList this) - 1 <= length (observerList (removeAt this i)))%nat.
Proof.
  destruct this as [l]. unfold removeAt. cbn [observerList].
  destruct (splice_one_cut l i) as (Hcut & Hres & Hk1 & Hak & _).
  rewrite Hres. rewrite Hcut at 1.
  rewrite !length_app, length_firstn, length_firstn, !length_skipn. lia.
Qed.

Lemma requeueing_never_shrinks : never_shrinks requeueing_update.
Proof.
  intros o c w. unfold requeueing_update.
  destruct (strict_eq o Scenario.A); cbn [snd]; [| lia].
  unfold registered, addObserver, removeObserver. cbn [subject observers].
  rewrite add_eq. cbn [fst observerList]. rewrite length_app. cbn [length].
  pose proof (removeAt_length_ge (observers (subject w))
                (indexOf (observers (subject w)) Scenario.A (Some 0))).
  lia.
Qed.

Lemma requeueing_returns : returns requeueing_update.
Proof.
  intros o c w. unfold requeueing_update.
  destruct (strict_eq o Scenario.A); reflexivity.
Qed.

Lemma leaving_returns : returns Scenario.leaving_update.
Proof.
  intros o c w. unfold Scenario.leaving_update.
  destruct (strict_eq o Scenario.A); reflexivity.
Qed.

Lemma failing_keeps_list : keeps_list Scenario.failing_update.
Proof.
  intros o c w. unfold Scenario.failing_update.
  destruct (strict_eq o Scenario.A); reflexivity.
Qed.

(** X11: whatever the handlers do (add, remove, throw), a pass of
    [notify(ctx)] makes at most as many calls of [update] as there were
    observers when it began, each with [ctx] itself, and exactly that many
    when it returns: a handler that keeps adding observers cannot keep the
    pass going. *)
Theorem notify_makes_at_most_count_calls :
  forall (Ctx Heap : Type) (update : update_method Ctx Heap)
         (context : Ctx) (w : World Heap),
    (length (snd (notify update context w)) <= length (registered w))%nat
    /\ Forall (fun call => snd call = context) (snd (notify update context w))
    /\ (fst (fst (notify update context w)) = Normal ->
        length (snd (notify update context w)) = length (registered w)).
Proof.
  intros Ctx Heap update context w. unfold notify, count, len.
  rewrite Nat2Z.id. fold (registered w).
  destruct (notify_for_calls _ _ update context (length (registered w)) 0 w [])
    as (more & Hm & Hlen & Hall & Hn).
  rewrite Hm. simpl. auto.
Qed.

(** X12: when the handlers return and never leave the list shorter than
    they found it (they may add, or remove and add back), [notify] does
    not throw: it returns after exactly as many calls as there were
    observers when it began, on a list at least that long. Which observers
    those calls reach is another matter: a handler that moves an observer
    can have one called twice and another not at all. *)
Theorem notify_returns_when_the_list_never_shrinks :
  forall (Ctx Heap : Type) (update : update_method Ctx Heap)
         (context : Ctx) (w : World Heap),
    never_shrinks update -> returns update ->
    exists w' made,
      notify update context w = (Normal, w', made)
      /\ length made = length (registered w)
      /\ (length (registered w) <= length (registered w'))%nat.
Proof.
  intros Ctx Heap update context w Hgrow Hret.
  unfold notify, count, len. rewrite Nat2Z.id. fold (registered w).
  destruct (notify_for_never_shrinks _ _ update context Hgrow Hret
              (length (registered w)) 0 w [] ltac:(simpl; lia))
    as (w' & made & Hrun & Hlen).
  exists w', made. simpl in Hrun.
  split; [exact Hrun |]. split; [| exact Hlen].
  apply notify_for_returned_length in Hrun. simpl in Hrun. exact Hrun.
Qed.

(** X12 on the list [A; B], where [A]'s handler removes [A] and adds it
    back at the end: two calls, both of [A]. *)
Lemma notify_returns_when_the_list_never_shrinks_witness :
  exists w' made,
    notify requeueing_update 5 (Scenario.bare [Scenario.A; Scenario.B])
    = (Normal, w', made)
    /\ length made = length (registered (Scenario.bare [Scenario.A; Scenario.B]))
    /\ (length (registered (Scenario.bare [Scenario.A; Scenario.B]))
        <= length (registered w'))%nat.
Proof.
  exact (notify_returns_when_the_list_never_shrinks
           Z unit requeueing_update 5 (Scenario.bare [Scenario.A; Scenario.B])
           requeueing_never_shrinks requeueing_returns).
Defined.

(** X13: when no handler throws, the only error [notify] can throw is the
    [TypeError] of calling [update] on the [undefined] that [get(i)] gave,
    and when it does the list is shorter than it was when the pass began:
    some handler removed observers. *)
Theorem notify_throws_only_after_a_removal :
  forall (Ctx Heap : Type) (update : update_method Ctx Heap)
         (context : Ctx) (w w' : World Heap) (e : exn) (made : calls Ctx),
    returns update ->
    notify update context w = (Throw e, w', made) ->
    e = TypeError
    /\ (length (registered w') < length (registered w))%nat.
Proof.
  intros Ctx Heap update context w w' e made Hret Hrun.
  unfold notify, count, len in Hrun. rewrite Nat2Z.id in Hrun.
  fold (registered w) in Hrun.
  apply (notify_for_throws_when_shrunk _ _ update context Hret
           (length (registered w)) 0) in Hrun.
  exact Hrun.
Qed.

(** X13 on the list [A; B] where [A]'s handler removes [A]. *)
Lemma notify_throws_only_after_a_removal_witness :
  TypeError = TypeError
  /\ (length (registered (Scenario.bare [Scenario.B]))
      < length (registered (Scenario.bare [Scenario.A; Scenario.B])))%nat.
Proof.
  apply (notify_throws_only_after_a_removal
           Z unit Scenario.leaving_update 5
           (Scenario.bare [Scenario.A; Scenario.B])
           (Scenario.bare [Scenario.B]) TypeError [(Scenario.A, 5)]
           leaving_returns).
  reflexivity.
Defined.

(** X14: when the handlers leave the list alone, whether they return or
    throw, the calls of a pass are those of the first [n] observers of the
    list, in order, for some [n]; [n] is the whole list when [notify]
    returns, and the list is as it was in either case. *)
Theorem notify_calls_a_prefix_when_the_list_is_kept :
  forall (Ctx Heap : Type) (update : update_method Ctx Heap)
         (context : Ctx) (w : World Heap),
    keeps_list update ->
    registered (snd (fst (notify update context w))) = registered w
    /\ exists n,
        (n <= length (registered w))%nat
        /\ snd (notify update context w)
           = calls_for context (firstn n (registered w))
        /\ (fst (fst (notify update context w)) = Normal ->
            n = length (registered w)).
Proof.
  intros Ctx Heap update context w Hkeep.
  split.
  - apply (notify_for_keeps_list _ _ update context Hkeep).
  - unfold notify, count, len. rewrite Nat2Z.id. fold (registered w).
    destruct (notify_for_keeps_prefix _ _ update context Hkeep
                (length (registered w)) 0 w [] ltac:(simpl; lia))
      as (n & Hle & Hcalls & Hn).
    exists n. simpl in Hcalls. auto.
Qed.

(** X14 on the list [B; A; C] where [A]'s handler throws. *)
Lemma notify_calls_a_prefix_when_the_list_is_kept_witness :
  registered
    (snd (fst (notify Scenario.failing_update 5
                 (Scenario.bare [Scenario.B; Scenario.A; Scenario.C]))))
  = registered (Scenario.bare [Scenario.B; Scenario.A; Scenario.C])
  /\ exists n,
      (n <= length (registered (Scenario.bare [Scenario.B; Scenario.A; Scenario.C])))%nat
      /\ snd (notify Scenario.failing_update 5
                (Scenario.bare [Scenario.B; Scenario.A; Scenario.C]))
         = calls_for 5
             (firstn n (registered (Scenario.bare [Scenario.B; Scenario.A; Scenario.C])))
      /\ (fst (fst (notify Scenario.failing_update 5
                      (Scenario.bare [Scenario.B; Scenario.A; Scenario.C])))
          = Normal ->
          n = length (registered (Scenario.bare [Scenario.B; Scenario.A; Scenario.C]))).
Proof.
  exact (notify_calls_a_prefix_when_the_list_is_kept
           Z unit Scenario.failing_update 5
           (Scenario.bare [Scenario.B; Scenario.A; Scenario.C])
           failing_keeps_list).
Defined.

End DispatchEdges.

(** ** The page: checkboxes that follow the control checkbox *)

Section PageFacts.

Import ObserverList_prototype Subject_prototype Handlers.

(** The loop of [notify] over checkboxes: it returns, the subject is the
    one it started with, and the checkboxes it met have the new value. *)
Lemma checkbox_notify_for (value : bool) :
  forall (turns k : nat) (w : World Scenario.Checked) (made : calls bool),
    (k + turns <= length (registered w))%nat ->
    exists w',
      notify_for Scenario.checkbox_update value turns (Z.of_nat k) w made
      = (Normal, w',
         made ++ calls_for value (firstn turns (skipn k (registered w))))
      /\ subject w' = subject w
      /\ forall o,
          heap w' o
          = if in_dec Nat.eq_dec o (firstn turns (skipn k (registered w)))
            then value else heap w o.
Proof.
  induction turns as [| turns IH]; intros k w made Hk.
  - exists w. simpl. rewrite app_nil_r. auto.
  - cbn [notify_for]. rewrite get_nat. fold (registered w).
    destruct (nth_error (registered w) k) as [c |] eqn:Hn;
      [| apply nth_error_None in Hn; lia].
    unfold Scenario.checkbox_update at 1.
    set (w1 := mkWorld (subject w)
                 (fun o => if strict_eq o c then value else heap w o)).
    destruct (IH (S k) w1 (made ++ [(c, value)])
                ltac:(change (registered w1) with (registered w); lia))
      as (w' & Hrun & Hsub & Hheap).
    exists w'. replace (Z.of_nat k + 1) with (Z.of_nat (S k)) by lia.
    rewrite Hrun. change (registered w1) with (registered w) in *.
    rewrite (skipn_nth_error _ _ _ Hn). cbn [firstn].
    split; [unfold calls_for; simpl; now rewrite <- app_assoc |].
    split; [exact Hsub |].
    intros o. rewrite Hheap. unfold w1. cbn [heap]. unfold strict_eq.
    destruct (in_dec Nat.eq_dec o (firstn turns (skipn (S k) (registered w))))
      as [Hin | Hout];
      destruct (in_dec Nat.eq_dec o (c :: firstn turns (skipn (S k) (registered w))))
      as [Hin' | Hout']; try reflexivity.
    + exfalso. apply Hout'. now right.
    + destruct (Nat.eqb_spec o c) as [Heq | Hne]; [reflexivity |].
      destruct Hin' as [Hc | Hrest]; [congruence | contradiction].
    + destruct (Nat.eqb_spec o c) as [Heq | Hne]; [| reflexivity].
      exfalso. apply Hout'. left. congruence.
Qed.

Lemma checkbox_notify (value : bool) (w : World Scenario.Checked) :
  exists w',
    notify Scenario.checkbox_update value w
    = (Normal, w', calls_for value (registered w))
    /\ subject w' = subject w
    /\ forall o,
        heap w' o = if in_dec Nat.eq_dec o (registered w) then value else heap w o.
Proof.
  unfold notify, count, len. rewrite Nat2Z.id. fold (registered w).
  destruct (checkbox_notify_for value (length (registered w)) 0 w []
              ltac:(simpl; lia)) as (w' & Hrun & Hsub & Hheap).
  simpl in Hrun, Hheap. rewrite firstn_all in Hrun, Hheap.
  exists w'. auto.
Qed.

Lemma handle_in_step (p : Page.page) (n : nat) (e : Page.event) :
  Page.in_step p n -> Page.in_step (Page.handle p e) (n + Page.adds [e]).
Proof.
  intros (Hc & Hk & Hr). destruct e as [| value]; cbn [Page.handle].
  - change (Page.adds [Page.ClickAdd]) with 1%nat. rewrite Nat.add_1_r.
    unfold Page.in_step, Page.addNewObserver.
    cbn [Page.created Page.container Page.world].
    rewrite registered_addObserver, Hc, Hk, Hr, seq_S. auto.
  - change (Page.adds [Page.ClickControl value]) with 0%nat. rewrite Nat.add_0_r.
    unfold Page.controlCheckbox_onclick.
    destruct (checkbox_notify value (Page.world p)) as (w' & Hrun & Hsub & _).
    rewrite Hrun. cbn [fst snd].
    unfold Page.in_step. cbn [Page.created Page.container Page.world].
    unfold registered in *. rewrite Hsub. auto.
Qed.

Lemma adds_app (es es' : list Page.event) :
  Page.adds (es ++ es') = (Page.adds es + Page.adds es')%nat.
Proof. unfold Page.adds. now rewrite filter_app, length_app. Qed.

Lemma run_in_step (es : list Page.event) :
  forall (p : Page.page) (n : nat),
    Page.in_step p n -> Page.in_step (Page.run es p) (n + Page.adds es).
Proof.
  induction es as [| e es IH]; intros p n Hp.
  - simpl. now rewrite Nat.add_0_r.
  - change (e :: es) with ([e] ++ es). rewrite adds_app, Nat.add_assoc.
    apply IH. now apply handle_in_step.
Qed.

Lemma loaded_in_step : Page.in_step Page.loaded 0.
Proof. repeat split. Qed.

End PageFacts.

Section PageClaims.

Import ObserverList_prototype Subject_prototype Handlers.

(** X15: with the [update] of the checkboxes, [this.checked = value],
    [notify(value)] returns after one call per registered checkbox, in
    order; the list of observers is as it was, every registered checkbox
    has [checked] equal to [value], and the [checked] of any other element
    is untouched. *)
Theorem notify_sets_checked_of_every_observer :
  forall (value : bool) (w : World Scenario.Checked),
    exists w',
      notify Scenario.checkbox_update value w
      = (Normal, w', calls_for value (registered w))
      /\ registered w' = registered w
      /\ (forall o, In o (registered w) -> heap w' o = value)
      /\ (forall o, ~ In o (registered w) -> heap w' o = heap w o).
Proof.
  intros value w.
  destruct (checkbox_notify value w) as (w' & Hrun & Hsub & Hheap).
  exists w'. split; [exact Hrun |].
  split; [unfold registered; now rewrite Hsub |].
  split; intros o Ho; rewrite Hheap;
    destruct (in_dec Nat.eq_dec o (registered w)); tauto.
Qed.

(** X16: after any sequence of clicks on the button and on the control
    checkbox, the observers of the control checkbox are the children of the
    container, in the same order; there is one per click on the button and
    no element is there twice. *)
Theorem observers_are_the_children_of_the_container :
  forall es : list Page.event,
    let p := Page.run es Page.loaded in
    registered (Page.world p) = Page.container p
    /\ length (Page.container p) = Page.adds es
    /\ Page.created p = Page.adds es
    /\ NoDup (Page.container p).
Proof.
  intros es p.
  destruct (run_in_step es Page.loaded 0 loaded_in_step) as (Hc & Hk & Hr).
  fold p in Hc, Hk, Hr. simpl in Hc, Hk, Hr.
  rewrite Hr, Hk, length_seq. repeat split; auto. apply seq_NoDup.
Qed.

(** X17: after any sequence of clicks, a click on the control checkbox
    returns after one call of [update] per child of the container, in
    order, and leaves every one of them with [checked] equal to the state
    of the control checkbox; the container is as it was. *)
Theorem control_click_sets_every_checkbox :
  forall (es : list Page.event) (value : bool),
    let p := Page.run es Page.loaded in
    exists p',
      Page.controlCheckbox_onclick value p
      = (Normal, p', calls_for value (Page.container p))
      /\ Page.container p' = Page.container p
      /\ registered (Page.world p') = Page.container p
      /\ forall o, In o (Page.container p') ->
           heap (Page.world p') o = value.
Proof.
  intros es value p.
  destruct (run_in_step es Page.loaded 0 loaded_in_step) as (_ & Hk & Hr).
  fold p in Hk, Hr.
  destruct (checkbox_notify value (Page.world p)) as (w' & Hrun & Hsub & Hheap).
  exists (Page.mkPage w' (Page.container p) (Page.created p)).
  unfold Page.controlCheckbox_onclick. rewrite Hrun, Hr, <- Hk.
  split; [reflexivity |]. split; [reflexivity |].
  cbn [Page.container Page.world].
  split; [unfold registered in *; rewrite Hsub, Hr, Hk; reflexivity |].
  intros o Ho. rewrite Hheap, Hr, <- Hk.
  destruct (in_dec Nat.eq_dec o (Page.container p)); tauto.
Qed.

(** X18: [addNewObserver] registers the new checkbox and calls no
    [update]: a checkbox added after a click on the control checkbox is in
    the container, unchecked whatever the state of the control checkbox,
    while the checkboxes that were there keep the state the click gave
    them. *)
Theorem checkbox_added_after_a_click_is_not_notified :
  forall (es : list Page.event) (value : bool),
    let p := Page.run (es ++ [Page.ClickControl value; Page.ClickAdd]) Page.loaded in
    let check : Obs := Page.adds es in
    Page.container p = Page.container (Page.run es Page.loaded) ++ [check]
    /\ heap (Page.world p) check = false
    /\ forall o, In o (Page.container p) -> o <> check ->
         heap (Page.world p) o = value.
Proof.
  intros es value p check.
  destruct (run_in_step es Page.loaded 0 loaded_in_step) as (Hc & Hk & Hr).
  simpl in Hc, Hk, Hr.
  set (p0 := Page.run es Page.loaded) in *.
  destruct (checkbox_notify value (Page.world p0)) as (w' & Hrun & Hsub & Hheap).
  assert (Hp : p = Page.addNewObserver
                     (Page.mkPage w' (Page.container p0) (Page.created p0))).
  { unfold p, Page.run. rewrite fold_left_app. fold (Page.run es Page.loaded).
    fold p0. cbn [fold_left Page.handle].
    unfold Page.controlCheckbox_onclick. now rewrite Hrun. }
  rewrite Hp. unfold Page.addNewObserver.
  cbn [Page.container Page.world Page.created heap]. fold check in Hc.
  rewrite Hc. unfold strict_eq.
  split; [reflexivity |]. split; [now rewrite Nat.eqb_refl |].
  intros o Ho Hne. destruct (Nat.eqb_spec o check) as [Heq | _]; [contradiction |].
  rewrite Hheap, Hr, <- Hk.
  apply in_app_or in Ho as [Ho | [Ho | []]]; [| congruence].
  destruct (in_dec Nat.eq_dec o (Page.container p0)); tauto.
Qed.

End PageClaims.

(** ** Objects: what [extend] copies *)

Section ObjectFacts.

Import Objects.

Variable Value : Type.
Variable undefined : Value.

Implicit Types (ps : properties Value) (key k : String.string)
  (seen : list String.string) (chain : list (properties Value))
  (obj extension : object Value) (v : Value).

Lemma seen_before_In key seen : seen_before key seen = true <-> In key seen.
Proof.
  unfold seen_before. rewrite existsb_exists. split.
  - intros (k & Hin & Heq). apply String.eqb_eq in Heq. now subst k.
  - intros Hin. exists key. split; [exact Hin | apply String.eqb_refl].
Qed.

Lemma seen_before_false key seen : seen_before key seen = false <-> ~ In key seen.
Proof.
  rewrite <- seen_before_In. destruct (seen_before key seen); split;
    congruence.
Qed.

Lemma own_property_None ps key :
  own_property ps key = None <-> ~ In key (map fst ps).
Proof.
  induction ps as [| [k p] rest IH]; simpl.
  - tauto.
  - destruct (String.eqb_spec k key) as [-> | Hne].
    + split; [discriminate | intros H; exfalso; apply H; now left].
    + rewrite IH. tauto.
Qed.

(** Of one object, [for in] takes the keys not seen on a nearer object whose
    property is enumerable. *)
Lemma enumerate_In ps :
  forall seen key,
    In key (enumerate seen ps) <->
    seen_before key seen = false
    /\ exists p, own_property ps key = Some p /\ enumerable p = true.
Proof.
  induction ps as [| [k p] rest IH]; intros seen key; cbn [enumerate own_property].
  - split; [intros [] | intros (_ & q & Hq & _); discriminate].
  - destruct (seen_before k seen) eqn:Hk.
    + rewrite IH. destruct (String.eqb_spec k key) as [-> | Hne]; [| tauto].
      split; intros (Hs & _); congruence.
    + rewrite in_app_iff, IH.
      destruct (String.eqb_spec k key) as [-> | Hne].
      * split.
        -- intros [Hhead | (Hs & _)].
           ++ destruct (enumerable p) eqn:He; [| destruct Hhead].
              split; [exact Hk | now exists p].
           ++ apply seen_before_false in Hs. exfalso. apply Hs. now left.
        -- intros (_ & q & Hq & He). injection Hq as <-.
           left. rewrite He. now left.
      * assert (Hs : seen_before key (k :: seen) = seen_before key seen).
        { unfold seen_before. simpl.
          destruct (String.eqb_spec key k); [congruence | reflexivity]. }
        rewrite Hs. split.
        -- intros [Hhead | H]; [| exact H].
           destruct (enumerable p); [| destruct Hhead].
           destruct Hhead as [Heq | []]. congruence.
        -- intros H. now right.
Qed.

(** [for in] takes a key exactly when the property that a read of that key
    finds is enumerable. *)
Lemma for_in_chain_In chain :
  forall seen key,
    In key (for_in_chain seen chain) <->
    seen_before key seen = false
    /\ exists p, chain_property chain key = Some p /\ enumerable p = true.
Proof.
  induction chain as [| ps rest IH]; intros seen key;
    cbn [for_in_chain chain_property].
  - split; [intros [] | intros (_ & q & Hq & _); discriminate].
  - rewrite in_app_iff, enumerate_In, IH.
    destruct (own_property ps key) as [p |] eqn:Hown.
    + assert (Hin : seen_before key (map fst ps ++ seen) = true).
      { apply seen_before_In, in_or_app. left.
        destruct (in_dec String.string_dec key (map fst ps)) as [H | H];
          [exact H |].
        apply own_property_None in H. congruence. }
      rewrite Hin. split; [intros [H | [H _]]; [exact H | discriminate] |].
      intros H. now left.
    + assert (Hsame : seen_before key (map fst ps ++ seen) = seen_before key seen).
      { apply own_property_None in Hown.
        destruct (seen_before key seen) eqn:Hs.
        - apply seen_before_In, in_or_app. right. now apply seen_before_In.
        - apply seen_before_false. intros H. apply in_app_or in H as [H | H];
            [contradiction |]. apply seen_before_false in Hs. contradiction. }
      rewrite Hsame. split; [intros [(_ & q & Hq & _) | H]; [discriminate | exact H] |].
      intros H. now right.
Qed.

Lemma for_in_In obj key :
  In key (for_in obj) <->
  exists p, chain_property (own obj :: prototypes obj) key = Some p
            /\ enumerable p = true.
Proof.
  unfold for_in. rewrite for_in_chain_In. simpl seen_before. tauto.
Qed.

Lemma own_assign_same ps key v :
  exists q, own_property (assign_own ps key v) key = Some q /\ value q = v.
Proof.
  induction ps as [| [k p] rest IH]; cbn [assign_own].
  - exists (mkProperty v true). simpl. now rewrite String.eqb_refl.
  - destruct (String.eqb_spec k key) as [-> | Hne]; cbn [own_property].
    + exists (mkProperty v (enumerable p)). now rewrite String.eqb_refl.
    + destruct (String.eqb_spec k key); [contradiction | exact IH].
Qed.

Lemma own_assign_other ps k key v :
  k <> key -> own_property (assign_own ps k v) key = own_property ps key.
Proof.
  intros Hne. induction ps as [| [k' p] rest IH]; cbn [assign_own own_property].
  - destruct (String.eqb_spec k key); [contradiction | reflexivity].
  - destruct (String.eqb_spec k' k) as [-> | Hk]; cbn [own_property].
    + destruct (String.eqb_spec k key); [contradiction | reflexivity].
    + now rewrite IH.
Qed.

Lemma assign_own_same_value ps key (p : property Value) :
  own_property ps key = Some p -> assign_own ps key (value p) = ps.
Proof.
  induction ps as [| [k q] rest IH]; cbn [own_property assign_own];
    [discriminate |].
  destruct (String.eqb_spec k key) as [-> | Hne].
  - intros H. injection H as ->. now destruct p.
  - intros H. now rewrite IH.
Qed.

Lemma extend_for_prototypes extension keys :
  forall obj, prototypes (extend_for undefined extension keys obj) = prototypes obj.
Proof.
  induction keys as [| k keys IH]; intros obj; [reflexivity |].
  unfold extend_for in *. cbn [fold_left]. now rewrite IH.
Qed.

Lemma extend_for_other extension keys key :
  ~ In key keys ->
  forall obj,
    own_property (own (extend_for undefined extension keys obj)) key
    = own_property (own obj) key.
Proof.
  induction keys as [| k keys IH]; intros Hnot obj; [reflexivity |].
  unfold extend_for in *. cbn [fold_left].
  rewrite IH by (intros H; apply Hnot; now right).
  apply own_assign_other. intros ->. apply Hnot. now left.
Qed.

Lemma extend_for_copied extension keys key :
  In key keys ->
  forall obj,
    exists q, own_property (own (extend_for undefined extension keys obj)) key = Some q
              /\ value q = get undefined extension key.
Proof.
  induction keys as [| k keys IH]; intros Hin obj; [destruct Hin |].
  unfold extend_for in *. cbn [fold_left].
  destruct (in_dec String.string_dec key keys) as [Hlater | Hnot].
  - now apply IH.
  - destruct Hin as [-> | Hin]; [| contradiction].
    fold (extend_for undefined extension keys (set obj key (get undefined extension key))).
    rewrite extend_for_other by exact Hnot.
    apply own_assign_same.
Qed.

Lemma extend_for_again extension keys obj :
  (forall key, In key keys ->
     exists q, own_property (own obj) key = Some q
               /\ value q = get undefined extension key) ->
  extend_for undefined extension keys obj = obj.
Proof.
  induction keys as [| k keys IH]; intros Hall; [reflexivity |].
  unfold extend_for in *. cbn [fold_left].
  destruct (Hall k ltac:(now left)) as (q & Hq & Hv).
  assert (Hset : set obj k (get undefined extension k) = obj).
  { unfold set. rewrite <- Hv, (assign_own_same_value _ _ _ Hq).
    now destruct obj. }
  rewrite Hset. apply IH. intros key Hin. apply Hall. now right.
Qed.

Lemma get_own obj key (q : property Value) :
  own_property (own obj) key = Some q -> get undefined obj key = value q.
Proof. intros H. unfold get. simpl. now rewrite H. Qed.

End ObjectFacts.

Section ObjectClaims.

Import Objects.

Lemma get_set_same (Value : Type) (undefined : Value) (obj : object Value)
    (key : String.string) (v : Value) :
  get undefined (set obj key v) key = v.
Proof.
  destruct (own_assign_same Value (own obj) key v) as (q & Hq & Hv).
  rewrite (get_own Value undefined (set obj key v) key q Hq). exact Hv.
Qed.

Lemma get_set_other (Value : Type) (undefined : Value) (obj : object Value)
    (k key : String.string) (v : Value) :
  k <> key -> get undefined (set obj k v) key = get undefined obj key.
Proof.
  intros Hne. unfold get, set. cbn [own prototypes chain_property].
  now rewrite own_assign_other.
Qed.




(** X21: extending twice with the same extension is extending once. *)
Theorem extend_twice_is_extend_once :
  forall (Value : Type) (undefined : Value) (obj extension : object Value),
    extend undefined (extend undefined obj extension) extension
    = extend undefined obj extension.
Proof.
  intros Value undefined obj extension.
  unfold extend at 1. apply extend_for_again.
  intros key Hin.
  apply (extend_for_copied Value undefined extension (for_in extension) key Hin).
Qed.

(** X22: a checkbox extended with [new Observer()] has the [update] of the
    constructor, the function that does nothing; once [check.update] is
    assigned, a read gives the assigned function, and every other property
    of the checkbox reads as before the two steps, [Observer.prototype]
    having nothing enumerable to give. *)
Theorem observer_update_is_overridden :
  forall (Value : Type) (undefined : Value) (check : object Value)
         (Observer_prototype : list (properties Value))
         (nothing custom : Value),
    let extended := extend undefined check (Observer Observer_prototype nothing) in
    get undefined extended "update"%string = nothing
    /\ get undefined (set extended "update"%string custom) "update"%string
       = custom
    /\ ((forall key p, chain_property Observer_prototype key = Some p ->
                       enumerable p = false) ->
        forall key, key <> "update"%string ->
          get undefined (set extended "update"%string custom) key
          = get undefined check key).
Proof.
  intros Value undefined check proto nothing custom extended.
  assert (Hchain : forall key,
             chain_property (own (Observer proto nothing)
                             :: prototypes (Observer proto nothing)) key
             = if String.eqb "update"%string key
               then Some (mkProperty nothing true)
               else chain_property proto key).
  { intros key. unfold Observer, set. cbn [own prototypes assign_own].
    cbn [chain_property own_property].
    destruct (String.eqb "update"%string key); reflexivity. }
  split; [| split].
  - destruct (extend_for_copied Value undefined (Observer proto nothing)
                (for_in (Observer proto nothing)) "update"%string) with (obj := check)
      as (q & Hq & Hv).
    + apply for_in_In. exists (mkProperty nothing true).
      rewrite Hchain. now rewrite String.eqb_refl.
    + fold (extend undefined check (Observer proto nothing)) in Hq.
      fold extended in Hq.
      rewrite (get_own Value undefined extended _ q Hq), Hv.
      unfold get. rewrite Hchain. now rewrite String.eqb_refl.
  - apply get_set_same.
  - intros Hproto key Hne.
    rewrite get_set_other by congruence.
    unfold get. cbn [chain_property].
    assert (Hnot : ~ In key (for_in (Observer proto nothing))).
    { intros Hin. apply for_in_In in Hin as (p & Hp & He).
      rewrite Hchain in Hp.
      destruct (String.eqb_spec "update"%string key) as [Heq | _];
        [congruence |].
      rewrite (Hproto key p Hp) in He. discriminate. }
    unfold extended, extend.
    rewrite extend_for_other by exact Hnot.
    now rewrite extend_for_prototypes.
Qed.

End ObjectClaims.
